(** * salatomatic-scraper: a shallow embedding of [src/index.ts]

    The scraper reads an index page, collects the detail-page links found
    under the [.titleBS] blocks, visits each of them and fills one [Mosque]
    record per link.  Two helpers carry the logic: [cleanText], a chain of
    three regular-expression replacements and a trim, and [convertToDate],
    which turns a display string such as [05:30 (EST)] into a [Date].

    JavaScript strings are sequences of UTF-16 code units; they are modelled
    as lists of [N].  The DOM that cheerio hands back is a tree of nodes.
    The network, the HTML parser and the clock are the collaborators of the
    program and appear as variables of a section. *)

From Stdlib Require Import List NArith ZArith Bool Lia String Ascii Arith.
Import ListNotations.

(** ** JavaScript strings *)

Module JsString.

Definition jsstring := list N.

(** A literal of the source, one code unit per character. *)
Definition js (s : string) : jsstring :=
  List.map N_of_ascii (list_ascii_of_string s).

Definition eqb (a b : jsstring) : bool :=
  if list_eq_dec N.eq_dec a b then true else false.

Local Open Scope N_scope.

Definition LF : N := 10.
Definition TAB : N := 9.

(** [\d] *)
Definition is_digit (c : N) : bool := (48 <=? c) && (c <=? 57).

(** [\w]: ASCII letters, digits and the underscore. *)
Definition is_word (c : N) : bool :=
  is_digit c || ((65 <=? c) && (c <=? 90)) || ((97 <=? c) && (c <=? 122))
  || (c =? 95).

(** [\s], which is also the set that [String.prototype.trim] strips:
    the WhiteSpace and LineTerminator code points of ECMAScript. *)
Definition is_space (c : N) : bool :=
  ((9 <=? c) && (c <=? 13)) || (c =? 32) || (c =? 160) || (c =? 5760)
  || ((8192 <=? c) && (c <=? 8202)) || (c =? 8232) || (c =? 8233)
  || (c =? 8239) || (c =? 8287) || (c =? 12288) || (c =? 65279).

Fixpoint dropWhile (p : N -> bool) (s : jsstring) : jsstring :=
  match s with
  | [] => []
  | c :: r => if p c then dropWhile p r else s
  end.

Fixpoint takeWhile (p : N -> bool) (s : jsstring) : jsstring :=
  match s with
  | [] => []
  | c :: r => if p c then c :: takeWhile p r else []
  end.

(** [String.prototype.trim] *)
Definition trimStart (s : jsstring) : jsstring := dropWhile is_space s.
Definition trimEnd (s : jsstring) : jsstring :=
  rev (dropWhile is_space (rev s)).
Definition trim (s : jsstring) : jsstring := trimEnd (trimStart s).

(** *** [s.replace(re, "")] for a global regular expression

    A regular expression without look-behind is given by its matcher at
    the head of the remaining input, which returns the length of the
    match.  The replacement scans from the left: where the expression
    matches, the match is dropped and the scan resumes behind it;
    elsewhere one code unit is copied.  An empty match copies one code
    unit as well.  The scan consumes at least one code unit per step, so
    the length of the input is enough fuel. *)
Definition regex := jsstring -> option nat.

Fixpoint replace_fuel (fuel : nat) (re : regex) (s : jsstring) : jsstring :=
  match fuel with
  | O => []
  | S fuel' =>
      match s with
      | [] => []
      | c :: rest =>
          match re s with
          | Some (S k) => replace_fuel fuel' re (skipn k rest)
          | _ => c :: replace_fuel fuel' re rest
          end
      end
  end.

Definition replace_g (re : regex) (s : jsstring) : jsstring :=
  replace_fuel (List.length s) re s.

(** [/\n/g] *)
Definition re_newline : regex :=
  fun s => match s with
           | c :: _ => if c =? LF then Some 1%nat else None
           | [] => None
           end.

(** [/\t/g] *)
Definition re_tab : regex :=
  fun s => match s with
           | c :: _ => if c =? TAB then Some 1%nat else None
           | [] => None
           end.

(** [/\s\s+/g]: two whitespace code units, then greedily all that follow. *)
Definition re_spaces : regex :=
  fun s => match s with
           | a :: b :: rest =>
               if is_space a && is_space b
               then Some (2 + List.length (takeWhile is_space rest))%nat
               else None
           | _ => None
           end.

End JsString.

Import JsString.

(** ** [cleanText] *)

Definition cleanText (text : jsstring) : jsstring :=
  trim (replace_g re_spaces (replace_g re_tab (replace_g re_newline text))).

(** *** The normalizer as the specification words it

    Delete every newline and every tab; cut the text into its maximal runs
    of whitespace and of non-whitespace and drop each whitespace run of two
    or more code units; strip the whitespace at both ends. *)
Module Normalizer.

Definition delete_char (c : N) (s : jsstring) : jsstring :=
  filter (fun x => negb (N.eqb x c)) s.

Fixpoint runs (s : jsstring) : list jsstring :=
  match s with
  | [] => []
  | c :: rest =>
      match runs rest with
      | (d :: r) :: rs =>
          if Bool.eqb (is_space c) (is_space d)
          then (c :: d :: r) :: rs
          else [c] :: (d :: r) :: rs
      | _ => [[c]]
      end
  end.

Definition long_space_run (r : jsstring) : bool :=
  forallb is_space r && (2 <=? List.length r)%nat.

Definition collapse (s : jsstring) : jsstring :=
  List.concat (filter (fun r => negb (long_space_run r)) (runs s)).

Definition strip (s : jsstring) : jsstring :=
  rev (dropWhile is_space (rev (dropWhile is_space s))).

Definition normalize (raw : jsstring) : jsstring :=
  strip (collapse (delete_char TAB (delete_char LF raw))).

(** No two whitespace code units stand side by side. *)
Fixpoint no_adjacent_space (s : jsstring) : bool :=
  match s with
  | a :: ((b :: _) as r) =>
      negb (is_space a && is_space b) && no_adjacent_space r
  | _ => true
  end.

Definition starts_with_space (s : jsstring) : bool :=
  match s with
  | c :: _ => is_space c
  | [] => false
  end.

Definition ends_with_space (s : jsstring) : bool :=
  starts_with_space (rev s).

End Normalizer.

(** ** Numbers, property lookup and [Date] *)

Module Js.

(** A JavaScript number as far as the program uses one: an integer or
    [NaN]. All the integers that occur are below 2^53, where the
    arithmetic of doubles is exact. *)
Inductive number := NaN | Num (z : Z).

(** The values that reading a property of [timeZoneOffsets] can give:
    [undefined], an offset, or a member inherited from
    [Object.prototype] (a function, or for [__proto__] the prototype
    object itself). *)
Inductive value :=
| Undefined
| Number (n : Z)
| Builtin (name : jsstring).

Definition properties := list (jsstring * value).

Fixpoint getOwn (o : properties) (key : jsstring) : option value :=
  match o with
  | [] => None
  | (k, v) :: rest => if JsString.eqb k key then Some v else getOwn rest key
  end.

(** The string-keyed members of [Object.prototype]. *)
Definition Object_prototype : properties :=
  List.map (fun name => (js name, Builtin (js name)))
    [ "constructor"; "hasOwnProperty"; "isPrototypeOf";
      "propertyIsEnumerable"; "toLocaleString"; "toString"; "valueOf";
      "__proto__"; "__defineGetter__"; "__defineSetter__";
      "__lookupGetter__"; "__lookupSetter__" ]%string.

(** [o[key]] for an object literal [o]: the own property if there is one,
    else the one found along the prototype chain, else [undefined]. *)
Definition get (o : properties) (key : jsstring) : value :=
  match getOwn o key with
  | Some v => v
  | None =>
      match getOwn Object_prototype key with
      | Some v => v
      | None => Undefined
      end
  end.

(** [ToNumber]: a function or a plain object converts to [NaN]. *)
Definition ToNumber (v : value) : number :=
  match v with
  | Number n => Num n
  | Undefined | Builtin _ => NaN
  end.

Definition sub (a b : number) : number :=
  match a, b with
  | Num x, Num y => Num (x - y)
  | _, _ => NaN
  end.

(** [Number(s)] for a string of decimal digits (the empty string gives 0);
    [convertToDate] applies it to the two-digit groups of a match only. *)
Definition decimal (s : jsstring) : Z :=
  fold_left (fun acc c => 10 * acc + (Z.of_N c - 48))%Z s 0%Z.

Definition Number_ (s : jsstring) : number :=
  if forallb is_digit s then Num (decimal s) else NaN.

(** [s.split(sep)] for a separator of one code unit. *)
Fixpoint split (sep : N -> bool) (s : jsstring) : list jsstring :=
  match s with
  | [] => [[]]
  | c :: r =>
      if sep c then [] :: split sep r
      else match split sep r with
           | h :: t => (c :: h) :: t
           | [] => [[c]]
           end
  end.

(** [`${x}`] for a string that may be [undefined]. *)
Definition template (x : option jsstring) : jsstring :=
  match x with
  | Some s => s
  | None => js "undefined"
  end.

Local Open Scope Z_scope.

Definition msPerSecond : Z := 1000.
Definition msPerMinute : Z := 60000.
Definition msPerHour : Z := 3600000.
Definition msPerDay : Z := 86400000.

Definition Day (t : Z) : Z := t / msPerDay.
Definition HourFromTime (t : Z) : Z := (t / msPerHour) mod 24.
Definition MinFromTime (t : Z) : Z := (t / msPerMinute) mod 60.
Definition SecFromTime (t : Z) : Z := (t / msPerSecond) mod 60.
Definition msFromTime (t : Z) : Z := t mod msPerSecond.

Definition MakeTime (hour min sec ms : number) : number :=
  match hour, min, sec, ms with
  | Num h, Num m, Num s, Num milli =>
      Num (h * msPerHour + m * msPerMinute + s * msPerSecond + milli)
  | _, _, _, _ => NaN
  end.

Definition MakeDate (day : Z) (time : number) : number :=
  match time with
  | Num tm => Num (day * msPerDay + tm)
  | NaN => NaN
  end.

Definition TimeClip (time : number) : number :=
  match time with
  | Num t => if 8640000000000000 <? Z.abs t then NaN else Num t
  | NaN => NaN
  end.

(** A [Date] object holds a time value: milliseconds since the epoch in
    UTC, or [NaN] (an invalid date). *)
Record Date := mkDate { timeValue : number }.

(** [date.setUTCHours(hour, min, sec, ms)] *)
Definition setUTCHours (date : Date) (hour min sec ms : number) : Date :=
  match timeValue date with
  | NaN => date
  | Num t =>
      mkDate (TimeClip (MakeDate (Day t) (MakeTime hour min sec ms)))
  end.

(** A thrown [new Error(message)]. *)
Inductive exn := Error (message : string).

End Js.

Import Js.

(** ** The document tree and the cheerio queries the program issues *)

Module Cheerio.

#[warnings="-register-all"] Inductive Node :=
| Text (data : jsstring)
| Comment (data : jsstring)
| Element (name : jsstring) (attribs : list (jsstring * jsstring))
          (children : list Node).

(** A loaded document: the children of its root. *)
Definition Document := list Node.

(** A selection: nodes in document order. *)
Definition Selection := list Node.

Fixpoint textContent (n : Node) : jsstring :=
  match n with
  | Text d => d
  | Comment _ => []
  | Element _ _ ch => flat_map textContent ch
  end.

(** The proper descendants of a node, in document order. *)
Fixpoint descendants (n : Node) : list Node :=
  match n with
  | Element _ _ ch => flat_map (fun c => c :: descendants c) ch
  | _ => []
  end.

Definition all_nodes (d : Document) : list Node :=
  flat_map (fun c => c :: descendants c) d.

Inductive selector :=
| Class (c : jsstring)      (* [.c] *)
| Tag (t : jsstring).       (* [t]  *)

Fixpoint getAttribute (attribs : list (jsstring * jsstring)) (name : jsstring)
  : option jsstring :=
  match attribs with
  | [] => None
  | (k, v) :: rest =>
      if JsString.eqb k name then Some v else getAttribute rest name
  end.

Definition classList (attribs : list (jsstring * jsstring)) : list jsstring :=
  match getAttribute attribs (js "class") with
  | Some v => filter (fun t => negb (JsString.eqb t [])) (split is_space v)
  | None => []
  end.

Definition matches (sel : selector) (n : Node) : bool :=
  match n with
  | Element name attribs _ =>
      match sel with
      | Class c => existsb (JsString.eqb c) (classList attribs)
      | Tag t => JsString.eqb name t
      end
  | _ => false
  end.

(** [$(sel)] *)
Definition query (d : Document) (sel : selector) : Selection :=
  filter (matches sel) (all_nodes d).

(** [$x.find(sel)]; the program only calls it on selections of at most
    one element, where no node can be found twice. *)
Definition find (x : Selection) (sel : selector) : Selection :=
  flat_map (fun n => filter (matches sel) (descendants n)) x.

(** [$x.eq(i)] *)
Definition eq (x : Selection) (i : nat) : Selection :=
  match nth_error x i with
  | Some n => [n]
  | None => []
  end.

(** [$x.text()] *)
Definition text (x : Selection) : jsstring := flat_map textContent x.

(** [$x.attr(name)] *)
Definition attr (x : Selection) (name : jsstring) : option jsstring :=
  match x with
  | Element _ attribs _ :: _ => getAttribute attribs name
  | _ => None
  end.

(** [$x.each(f)], [f] updating a state. *)
Definition each {S : Type} (x : Selection) (f : Node -> S -> S) (s : S) : S :=
  fold_left (fun acc n => f n acc) x s.

End Cheerio.

Import Cheerio.

(** ** [convertToDate] *)

(** [/(\d{2}:\d{2})\s\((\w+)\)/] tried at the head of the input; the result
    holds the two capture groups.  The greedy [\w+] takes every word
    character; giving some back cannot help, as the code unit that follows
    a shorter group is a word character and not the closing parenthesis. *)
Definition timeRegex_at (s : jsstring) : option (jsstring * jsstring) :=
  match s with
  | d1 :: d2 :: c :: d3 :: d4 :: w :: p :: rest =>
      if is_digit d1 && is_digit d2 && N.eqb c 58 && is_digit d3
         && is_digit d4 && is_space w && N.eqb p 40
      then match takeWhile is_word rest, dropWhile is_word rest with
           | (_ :: _) as abbr, q :: _ =>
               if N.eqb q 41 then Some ([d1; d2; c; d3; d4], abbr) else None
           | _, _ => None
           end
      else None
  | _ => None
  end.

(** [timeString.match(timeRegex)]: the leftmost match. *)
Fixpoint timeRegex_match (s : jsstring) : option (jsstring * jsstring) :=
  match timeRegex_at s with
  | Some m => Some m
  | None =>
      match s with
      | [] => None
      | _ :: r => timeRegex_match r
      end
  end.

Definition timeZoneOffsets : properties :=
  [ (js "UTC", Number 0); (js "GMT", Number 0);
    (js "EST", Number (-5)); (js "EDT", Number (-4));
    (js "CST", Number (-6)); (js "CDT", Number (-5));
    (js "MST", Number (-7)); (js "MDT", Number (-6));
    (js "PST", Number (-8)); (js "PDT", Number (-7)) ].

Definition InvalidTimeFormat : exn := Error "Invalid time format".
Definition UnknownTimeZone : exn := Error "Unknown time zone abbreviation".

(** ** The record *)

Record PrayerTimings := mkPrayerTimings {
  fajr : option Date;
  snrs : option Date;
  dhur : option Date;
  asr : option Date;
  magh : option Date;
  isha : option Date
}.

Record Mosque := mkMosque {
  description : option jsstring;
  address : option jsstring;
  url : option jsstring;
  quickFacts : list jsstring;
  governance : list jsstring;
  prayerTimings : PrayerTimings
}.

Definition no_timings : PrayerTimings :=
  mkPrayerTimings None None None None None None.

(** The object literal the loop starts every mosque from. *)
Definition stub (u : jsstring) : Mosque :=
  {| description := None; address := None; url := Some u;
     quickFacts := []; governance := []; prayerTimings := no_timings |}.

(** ** Code that may throw while it updates a state *)

Module Exc.

Definition M (St A : Type) : Type := St -> (exn + A) * St.

Definition ret {St A} (a : A) : M St A := fun s => (inr a, s).

Definition bind {St A B} (m : M St A) (k : A -> M St B) : M St B :=
  fun s => match m s with
           | (inr a, s') => k a s'
           | (inl e, s') => (inl e, s')
           end.

Definition throw {St A} (e : exn) : M St A := fun s => (inl e, s).

Definition modify {St} (f : St -> St) : M St unit := fun s => (inr tt, f s).

(** Run a computation on the first component of a pair of states. *)
Definition on_fst {S1 S2 A} (m : M S1 A) : M (S1 * S2) A :=
  fun s => match m (fst s) with
           | (r, s1) => (r, (s1, snd s))
           end.

Definition of_sum {St A} (r : exn + A) : M St A := fun s => (r, s).

End Exc.

Import Exc.

Declare Scope exc_scope.
Delimit Scope exc_scope with exc.
Notation "x <- m ;; k" := (bind m (fun x => k))
  (at level 61, m at next level, right associativity) : exc_scope.
Notation "m ;; k" := (bind m (fun _ => k))
  (at level 61, right associativity) : exc_scope.

(** ** [convertToDate] and [scrape] *)

Definition DOMAIN : jsstring := js "https://www.salatomatic.com".
Definition SUB : jsstring :=
  js "/sub/United-States/Alabama/Birmingham/AvcK8i3L3C".

Section Scraper.

(** The collaborators: the state of the outside world; [new Date()],
    which reads the clock as a time value; [axios.get], which gives the
    body of a page or throws; [cheerio.load]. *)
Variable World : Type.
Variable Date_now : World -> Z * World.
Variable axios_get : jsstring -> World -> (exn + jsstring) * World.
Variable cheerio_load : jsstring -> exn + Document.

Definition convertToDate (timeString : jsstring) : M World Date :=
  match timeRegex_match timeString with
  | None => throw InvalidTimeFormat
  | Some (time, timeZoneAbbr) =>
      let parts := List.map Number_ (split (N.eqb 58) time) in
      let hours := nth 0 parts NaN in
      let minutes := nth 1 parts NaN in
      match get timeZoneOffsets timeZoneAbbr with
      | Undefined => throw UnknownTimeZone
      | offset =>
          fun w =>
            let (now, w') := Date_now w in
            let date := mkDate (Num now) in
            (inr (setUTCHours date (sub hours (ToNumber offset)) minutes
                    (Num 0) (Num 0)), w')
      end
  end.

(** Assignments to the fields of the [mosque] under construction. *)
Definition St : Type := World * Mosque.

Definition update (f : Mosque -> Mosque) : M St unit :=
  modify (fun s => (fst s, f (snd s))).

Definition set_address (v : jsstring) (m : Mosque) : Mosque :=
  {| description := description m; address := Some v; url := url m;
     quickFacts := quickFacts m; governance := governance m;
     prayerTimings := prayerTimings m |}.

Definition set_description (v : jsstring) (m : Mosque) : Mosque :=
  {| description := Some v; address := address m; url := url m;
     quickFacts := quickFacts m; governance := governance m;
     prayerTimings := prayerTimings m |}.

Definition push_quickFacts (v : jsstring) (m : Mosque) : Mosque :=
  {| description := description m; address := address m; url := url m;
     quickFacts := quickFacts m ++ [v]; governance := governance m;
     prayerTimings := prayerTimings m |}.

Definition push_governance (v : jsstring) (m : Mosque) : Mosque :=
  {| description := description m; address := address m; url := url m;
     quickFacts := quickFacts m; governance := governance m ++ [v];
     prayerTimings := prayerTimings m |}.

Definition set_timings (f : PrayerTimings -> PrayerTimings) (m : Mosque)
  : Mosque :=
  {| description := description m; address := address m; url := url m;
     quickFacts := quickFacts m; governance := governance m;
     prayerTimings := f (prayerTimings m) |}.

Definition set_fajr (d : Date) (p : PrayerTimings) : PrayerTimings :=
  mkPrayerTimings (Some d) (snrs p) (dhur p) (asr p) (magh p) (isha p).
Definition set_snrs (d : Date) (p : PrayerTimings) : PrayerTimings :=
  mkPrayerTimings (fajr p) (Some d) (dhur p) (asr p) (magh p) (isha p).
Definition set_dhur (d : Date) (p : PrayerTimings) : PrayerTimings :=
  mkPrayerTimings (fajr p) (snrs p) (Some d) (asr p) (magh p) (isha p).
Definition set_asr (d : Date) (p : PrayerTimings) : PrayerTimings :=
  mkPrayerTimings (fajr p) (snrs p) (dhur p) (Some d) (magh p) (isha p).
Definition set_magh (d : Date) (p : PrayerTimings) : PrayerTimings :=
  mkPrayerTimings (fajr p) (snrs p) (dhur p) (asr p) (Some d) (isha p).
Definition set_isha (d : Date) (p : PrayerTimings) : PrayerTimings :=
  mkPrayerTimings (fajr p) (snrs p) (dhur p) (asr p) (magh p) (Some d).

(** [mosque.prayerTimings.slot = convertToDate(cleanText($x.eq(i).text()))] *)
Definition assign_timing (set : Date -> PrayerTimings -> PrayerTimings)
    (microLinkDivs : Selection) (i : nat) : M St unit :=
  (d <- on_fst (convertToDate (cleanText (text (eq microLinkDivs i)))) ;;
   update (set_timings (set d)))%exc.

(** The six assignments to [mosque.prayerTimings], in source order. *)
Definition assign_timings (microLinkDivs : Selection) : M St unit :=
  (assign_timing set_fajr microLinkDivs 0 ;;
   assign_timing set_snrs microLinkDivs 1 ;;
   assign_timing set_dhur microLinkDivs 2 ;;
   assign_timing set_asr microLinkDivs 3 ;;
   assign_timing set_magh microLinkDivs 4 ;;
   assign_timing set_isha microLinkDivs 5)%exc.

(** The statements of the inner [try] block, in source order, once the
    page is loaded. *)
Definition extract (dollar : Document) : M St unit :=
  (let divs := query dollar (Class (js "bodyLink")) in
   update (set_address (cleanText (text (eq divs 0)))) ;;
   update (set_description (cleanText (text (eq divs 1)))) ;;
   let tbodies := query dollar (Tag (js "tbody")) in
   let tbodyQuickFacts := eq tbodies 212 in
   let tbodyQuickFactsDivs := find tbodyQuickFacts (Tag (js "div")) in
   update (each tbodyQuickFactsDivs
             (fun element => push_quickFacts (cleanText (text [element])))) ;;
   let tbodyGovernance := eq tbodies 214 in
   let tbodyGovernanceDivs := find tbodyGovernance (Tag (js "div")) in
   update (each tbodyGovernanceDivs
             (fun element => push_governance (cleanText (text [element])))) ;;
   let microLinkDivs := query dollar (Class (js "microLink")) in
   assign_timings microLinkDivs)%exc.

(** The inner [try] block. *)
Definition scrape_try (u : jsstring) : M St unit :=
  (data <- on_fst (axios_get u) ;;
   dollar <- of_sum (cheerio_load data) ;;
   extract dollar)%exc.

(** One turn of the [for] loop: the stub, the [try] block, the [catch]
    that only logs, and the [push]. *)
Definition scrape_one (u : jsstring) (acc : list Mosque * World)
  : list Mosque * World :=
  let (mosques, w) := acc in
  let mosque := stub u in
  let '(_, (w', mosque')) := scrape_try u (w, mosque) in
  (mosques ++ [mosque'], w').

(** The two nested [each] loops that fill [mosqueURLs]. *)
Definition mosqueURLs (dollar : Document) : list jsstring :=
  let divs := query dollar (Class (js "titleBS")) in
  each divs
    (fun div urls =>
       let links := find [div] (Tag (js "a")) in
       each links
         (fun link urls =>
            let href := attr [link] (js "href") in
            urls ++ [DOMAIN ++ template href])
         urls)
    [].

Definition scrape (w : World) : list Mosque * World :=
  let mosques : list Mosque := [] in
  let birminghamSubURL := DOMAIN ++ SUB in
  match axios_get birminghamSubURL w with
  | (inl _, w1) => (mosques, w1)
  | (inr data, w1) =>
      match cheerio_load data with
      | inl _ => (mosques, w1)
      | inr dollar =>
          fold_left (fun acc u => scrape_one u acc) (mosqueURLs dollar)
            (mosques, w1)
      end
  end.

End Scraper.

Arguments convertToDate {World} Date_now timeString _.
Arguments assign_timing {World} Date_now set microLinkDivs i _.
Arguments assign_timings {World} Date_now microLinkDivs _.
Arguments extract {World} Date_now dollar _.
Arguments scrape_try {World} Date_now axios_get cheerio_load u _.
Arguments scrape_one {World} Date_now axios_get cheerio_load u acc.
Arguments scrape {World} Date_now axios_get cheerio_load w.
Arguments update {World} f _.

(** ** The display pattern of a time, as the specification words it *)

Module TimePattern.

(** [TimeShape s time abbr]: [s] begins with two digits, a colon, two
    digits, one whitespace code unit and a parenthesised abbreviation of
    one or more word characters. *)
Inductive TimeShape : jsstring -> jsstring -> jsstring -> Prop :=
| TimeShape_intro (d1 d2 d3 d4 w : N) (abbr post : jsstring) :
    is_digit d1 = true -> is_digit d2 = true ->
    is_digit d3 = true -> is_digit d4 = true ->
    is_space w = true ->
    abbr <> [] -> forallb is_word abbr = true ->
    TimeShape ([d1; d2; 58; d3; d4; w; 40] ++ abbr ++ 41 :: post)%N
              [d1; d2; 58; d3; d4]%N abbr.

(** The pattern occurs somewhere in [s]. *)
Definition Occurs (s : jsstring) : Prop :=
  exists pre m time abbr, s = pre ++ m /\ TimeShape m time abbr.

(** [HH:MM (TZ)] *)
Definition display (d1 d2 d3 d4 : N) (abbr : jsstring) : jsstring :=
  ([d1; d2; 58; d3; d4; 32; 40] ++ abbr ++ [41])%N.

Definition two_digits (a b : N) : Z :=
  (10 * (Z.of_N a - 48) + (Z.of_N b - 48))%Z.

(** The ten abbreviations of the table. *)
Definition in_table (abbr : jsstring) : bool :=
  existsb (fun name => JsString.eqb (js name) abbr)
    ["UTC"; "GMT"; "EST"; "EDT"; "CST"; "CDT"; "MST"; "MDT"; "PST"; "PDT"]%string.

(** The first and the last time value of the range of [Date], a day in
    from either end. *)
Definition clock_in_range (now : Z) : Prop :=
  (- 8640000000000000 + msPerDay <= now <= 8640000000000000 - msPerDay)%Z.

End TimePattern.

(** ** The tree relations and the readings of the specification *)

Module DocSpec.

Inductive Child : Node -> Node -> Prop :=
| Child_intro (c : Node) name attribs children :
    In c children -> Child c (Element name attribs children).

Inductive Descendant : Node -> Node -> Prop :=
| Descendant_child c n : Child c n -> Descendant c n
| Descendant_step c d n : Descendant c d -> Child d n -> Descendant c n.

(** The URL pushed for an anchor. *)
Definition url_of_link (link : Node) : jsstring :=
  DOMAIN ++ template (attr [link] (js "href")).

(** The normalized text of one element. *)
Definition clean_text_of (n : Node) : jsstring := cleanText (text [n]).

(** The tags as the specification words them: the normalized texts of the
    direct children of the located element that match the marker. *)
Definition child_tags (marker : selector) (x : Selection) : list jsstring :=
  flat_map
    (fun n => match n with
              | Element _ _ children =>
                  List.map clean_text_of (filter (matches marker) children)
              | _ => []
              end) x.

(** The tags as the program collects them: the normalized texts of all the
    descendants of the located element that match the marker. *)
Definition descendant_tags (marker : selector) (x : Selection)
  : list jsstring :=
  List.map clean_text_of (find x marker).

(** Whether [convertToDate] returns a date for a text; the clock has no
    part in that. *)
Definition converts (s : jsstring) : bool :=
  match timeRegex_match s with
  | Some (_, abbr) =>
      match get timeZoneOffsets abbr with
      | Undefined => false
      | _ => true
      end
  | None => false
  end.

(** The text handed to [convertToDate] for slot [i]. *)
Definition timing_text (dollar : Document) (i : nat) : jsstring :=
  cleanText (text (eq (query dollar (Class (js "microLink"))) i)).

(** A slot as the specification words it: populated when element [i]
    exists and its text converts, whatever happened to the slots before. *)
Definition slot_by_itself (dollar : Document) (i : nat) : bool :=
  (i <? List.length (query dollar (Class (js "microLink"))))%nat
  && converts (timing_text dollar i).

(** A slot as the program fills it: populated when the texts of all the
    slots up to and including [i] convert. *)
Fixpoint slot_in_sequence (dollar : Document) (i : nat) : bool :=
  match i with
  | O => converts (timing_text dollar 0)
  | S j => slot_in_sequence dollar j && converts (timing_text dollar i)
  end.

(** The record once the texts and the tags are assigned, before the
    first time is converted. *)
Definition texts_record (dollar : Document) (u : jsstring) : Mosque :=
  let divs := query dollar (Class (js "bodyLink")) in
  let tbodies := query dollar (Tag (js "tbody")) in
  {| description := Some (cleanText (text (eq divs 1)));
     address := Some (cleanText (text (eq divs 0)));
     url := Some u;
     quickFacts := descendant_tags (Tag (js "div")) (eq tbodies 212);
     governance := descendant_tags (Tag (js "div")) (eq tbodies 214);
     prayerTimings := no_timings |}.

(** A node of the document: a root or a descendant of one. *)
Definition InDocument (x : Node) (d : Document) : Prop :=
  exists root, In root d /\ (x = root \/ Descendant x root).

Definition populated {A : Type} (o : option A) : bool :=
  match o with
  | Some _ => true
  | None => false
  end.

(** A slot, when populated, holds a date that [convertToDate] returned
    for the text [s]. *)
Definition converted_from {World : Type} (Date_now : World -> Z * World)
    (s : jsstring) (slot : option Date) : Prop :=
  match slot with
  | Some d =>
      exists w0, convertToDate Date_now s w0 = (inr d, snd (Date_now w0))
  | None => True
  end.

End DocSpec.

(** ** Concrete collaborators for the examples *)


Module Fixture.

(** A world without state whose clock stands at a fixed time value. *)
Definition clock (now : Z) (w : unit) : Z * unit := (now, w).

(** 3 November 2025, 09:15:27.500 UTC. *)
Definition morning : Z := 1762161327500.

Definition Date_now : unit -> Z * unit := clock morning.

Fixpoint assoc {A : Type} (l : list (jsstring * A)) (k : jsstring)
  : option A :=
  match l with
  | [] => None
  | (k', v) :: rest => if JsString.eqb k' k then Some v else assoc rest k
  end.

(** A site: the pages that can be fetched, each given by its URL and its
    parsed tree; the body of a page is represented by its URL. *)
Definition site := list (jsstring * Document).

Definition axios_get (pages : site) (u : jsstring) (w : unit)
  : (exn + jsstring) * unit :=
  match assoc pages u with
  | Some _ => (inr u, w)
  | None => (inl (Error "Request failed with status code 404"), w)
  end.

Definition cheerio_load (pages : site) (data : jsstring) : exn + Document :=
  match assoc pages data with
  | Some d => inr d
  | None => inr []
  end.

Definition run (pages : site) : list Mosque :=
  fst (scrape Date_now (axios_get pages) (cheerio_load pages) tt).

Definition el (name : string) (children : list Node) : Node :=
  Element (js name) [] children.

Definition el_class (name cls : string) (children : list Node) : Node :=
  Element (js name) [(js "class", js cls)] children.

Definition page (body : list Node) : Document :=
  [el "html" [el "head" []; el "body" body]].

Definition link (href : string) (label : string) : Node :=
  el_class "div" "titleBS"
    [Element (js "a") [(js "href", js href)] [Text (js label)]].

Definition micro (t : string) : Node :=
  el_class "td" "microLink" [Text (js t)].

Definition index_url : jsstring := DOMAIN ++ SUB.

(** An index with two links. *)
Definition index_page : Document :=
  page [link "/mosque/1" "Masjid One"; link "/mosque/2" "Masjid Two"].

(** A detail page with address, description and the six times. *)
Definition full_page : Document :=
  page [ el_class "div" "bodyLink" [Text (js " 12 Main St ")];
         el_class "div" "bodyLink" [Text (js "Open daily")];
         micro "05:30 (CST)"; micro "06:45 (CST)"; micro "12:10 (CST)";
         micro "15:05 (CST)"; micro "17:40 (CST)"; micro "19:00 (CST)" ].

(** A detail page with one body text and no time at all. *)
Definition address_only_page : Document :=
  page [ el_class "div" "bodyLink" [Text (js "12 Main St")] ].

(** A detail page with exactly four times. *)
Definition four_times_page : Document :=
  page [ micro "05:30 (CST)"; micro "06:45 (CST)"; micro "12:10 (CST)";
         micro "15:05 (CST)" ].

(** A detail page whose first time is not a time; the five others are. *)
Definition bad_fajr_page : Document :=
  page [ micro "n/a"; micro "06:45 (CST)"; micro "12:10 (CST)";
         micro "15:05 (CST)"; micro "17:40 (CST)"; micro "19:00 (CST)" ].

(** A detail page whose table body number 212 holds a tag in a cell, as
    the rows of a table do. *)
Definition facts_page : Document :=
  page (repeat (el "tbody" []) 212
        ++ [ el "tbody" [el "tr" [el "td" [el "div" [Text (js "Parking")]]]] ]).

Definition one_link_site (detail : Document) : site :=
  [ (index_url, page [link "/mosque/1" "Masjid One"]);
    (DOMAIN ++ js "/mosque/1", detail) ].

(** The index with two links, the first of which cannot be fetched. *)
Definition half_site : site :=
  [ (index_url, index_page); (DOMAIN ++ js "/mosque/2", full_page) ].

End Fixture.

(** ** [writeToFile]: the rows handed to the CSV writer *)

Module WriteToFile.

(** [array.join(sep)] on an array of strings. *)
Fixpoint join (sep : jsstring) (l : list jsstring) : jsstring :=
  match l with
  | [] => []
  | x :: rest =>
      match rest with
      | [] => x
      | _ :: _ => x ++ sep ++ join sep rest
      end
  end.

(** One object of [records]; the fields carry the names of the source with
    the prefix [row_]. *)
Record Row := mkRow {
  row_url : option jsstring;
  row_description : option jsstring;
  row_address : option jsstring;
  row_quickFacts : jsstring;
  row_governance : jsstring;
  row_fajr : option Date;
  row_snrs : option Date;
  row_dhur : option Date;
  row_asr : option Date;
  row_magh : option Date;
  row_isha : option Date
}.

(** [mosques.map((mosque) => ({ ... }))] *)
Definition records (mosques : list Mosque) : list Row :=
  List.map
    (fun mosque =>
       {| row_url := url mosque;
          row_description := description mosque;
          row_address := address mosque;
          row_quickFacts := join (js ", ") (quickFacts mosque);
          row_governance := join (js ", ") (governance mosque);
          row_fajr := fajr (prayerTimings mosque);
          row_snrs := snrs (prayerTimings mosque);
          row_dhur := dhur (prayerTimings mosque);
          row_asr := asr (prayerTimings mosque);
          row_magh := magh (prayerTimings mosque);
          row_isha := isha (prayerTimings mosque) |})
    mosques.

(** A tag without a comma. *)
Definition comma_free (tag : jsstring) : bool :=
  forallb (fun c => negb (N.eqb c 44)) tag.

(** Tags that a cell can be read back from: at least one, none with a
    comma. *)
Definition plain_tags (tags : list jsstring) : Prop :=
  tags <> [] /\ forallb comma_free tags = true.

End WriteToFile.

(** ** Further notions for the properties of the program *)

Module Props.

(** [Subseq a b]: [a] is [b] with some code units left out. *)
Inductive Subseq : jsstring -> jsstring -> Prop :=
| Subseq_nil : Subseq [] []
| Subseq_keep c a b : Subseq a b -> Subseq (c :: a) (c :: b)
| Subseq_drop c a b : Subseq a b -> Subseq a (c :: b).

(** The populated slots are the first ones. *)
Definition slots_form_prefix (p : PrayerTimings) : bool :=
  implb (DocSpec.populated (snrs p)) (DocSpec.populated (fajr p))
  && implb (DocSpec.populated (dhur p)) (DocSpec.populated (snrs p))
  && implb (DocSpec.populated (asr p)) (DocSpec.populated (dhur p))
  && implb (DocSpec.populated (magh p)) (DocSpec.populated (asr p))
  && implb (DocSpec.populated (isha p)) (DocSpec.populated (magh p)).

(** What holds of every record that [scrape] returns. *)
Definition record_ok (m : Mosque) : Prop :=
  (exists rest, url m = Some (DOMAIN ++ rest))
  /\ slots_form_prefix (prayerTimings m) = true
  /\ DocSpec.populated (description m) = DocSpec.populated (address m)
  /\ implb (DocSpec.populated (fajr (prayerTimings m)))
       (DocSpec.populated (address m)) = true
  /\ (DocSpec.populated (address m) = true
      \/ (quickFacts m = [] /\ governance m = []
          /\ prayerTimings m = no_timings)).

(** The longest span that [convertToDate] can add to the UTC midnight of
    the clock: hour 99 in the zone at offset -8, minute 99. *)
Definition longest_span : Z := (107 * msPerHour + 99 * msPerMinute)%Z.

(** The parentheses with the abbreviation between them. *)
Definition parenthesised (abbr : jsstring) : jsstring :=
  (40 :: abbr ++ [41])%N.

(** The time value that a match is turned into: the UTC midnight of the
    clock's day plus the hours and minutes asked for. *)
Definition instant (now : Z) (d1 d2 d3 d4 : N) (off : Z) : Z :=
  (Day now * msPerDay
   + ((TimePattern.two_digits d1 d2 - off) * msPerHour
      + TimePattern.two_digits d3 d4 * msPerMinute
      + 0 * msPerSecond + 0))%Z.

(** A clock far enough from both ends of the range of [Date] for every
    span that [convertToDate] can add. *)
Definition clock_well_inside (now : Z) : Prop :=
  (- 8640000000000000 + msPerDay <= now
   <= 8640000000000000 - longest_span)%Z.

End Props.

(** * Verification *)

(** ** Strings *)

Lemma jsstring_eqb_eq (a b : jsstring) : JsString.eqb a b = true <-> a = b.
Proof.
  unfold JsString.eqb. destruct (list_eq_dec N.eq_dec a b); split; congruence.
Qed.

Section WhileFacts.

Variable p : N -> bool.

Lemma take_drop_while s : takeWhile p s ++ dropWhile p s = s.
Proof.
  induction s as [|c r IH]; simpl; [reflexivity|].
  destruct (p c); simpl; [now rewrite IH | reflexivity].
Qed.

Lemma takeWhile_all s : forallb p (takeWhile p s) = true.
Proof.
  induction s as [|c r IH]; simpl; [reflexivity|].
  destruct (p c) eqn:E; simpl; [now rewrite E | reflexivity].
Qed.

Lemma dropWhile_head s c r : dropWhile p s = c :: r -> p c = false.
Proof.
  induction s as [|d t IH]; simpl; [discriminate|].
  destruct (p d) eqn:E; [exact IH | intros H; now inversion H; subst].
Qed.

Lemma dropWhile_fix s :
  match s with [] => True | c :: _ => p c = false end -> dropWhile p s = s.
Proof. destruct s as [|c r]; simpl; [reflexivity | now intros ->]. Qed.

Lemma dropWhile_idem s : dropWhile p (dropWhile p s) = dropWhile p s.
Proof.
  apply dropWhile_fix. destruct (dropWhile p s) eqn:E; [exact I|].
  eapply dropWhile_head; eassumption.
Qed.

Lemma skipn_takeWhile s : skipn (List.length (takeWhile p s)) s = dropWhile p s.
Proof.
  induction s as [|c r IH]; simpl; [reflexivity|].
  destruct (p c); simpl; [exact IH | reflexivity].
Qed.

Lemma dropWhile_length s : (List.length (dropWhile p s) <= List.length s)%nat.
Proof.
  induction s as [|c r IH]; simpl; [lia|]. destruct (p c); simpl; lia.
Qed.

Lemma dropWhile_incl s c : In c (dropWhile p s) -> In c s.
Proof.
  induction s as [|d r IH]; simpl; [tauto|].
  destruct (p d); simpl; tauto.
Qed.

(** Stripping the end keeps a prefix. *)
Lemma trimEnd_prefix s :
  s = rev (dropWhile p (rev s)) ++ rev (takeWhile p (rev s)).
Proof.
  rewrite <- rev_app_distr, take_drop_while. now rewrite rev_involutive.
Qed.

End WhileFacts.

(** ** [replace] with the three expressions of [cleanText] *)

Lemma replace_fuel_nil n re : replace_fuel n re [] = [].
Proof. now destruct n. Qed.

Lemma replace_char n (c : N) (re : regex) :
  (forall s, re s = match s with
                    | x :: _ => if N.eqb x c then Some 1%nat else None
                    | [] => None
                    end) ->
  forall s, (List.length s <= n)%nat ->
            replace_fuel n re s = Normalizer.delete_char c s.
Proof.
  intros Hre. induction n as [|n IH]; intros [|x r] Hlen; simpl in *;
    try reflexivity; try lia.
  rewrite Hre. destruct (N.eqb x c); simpl.
  - apply IH. lia.
  - f_equal. apply IH. lia.
Qed.

Lemma replace_newline s :
  replace_g re_newline s = Normalizer.delete_char LF s.
Proof. apply replace_char with (c := LF); [reflexivity | apply le_n]. Qed.

Lemma replace_tab s : replace_g re_tab s = Normalizer.delete_char TAB s.
Proof. apply replace_char with (c := TAB); [reflexivity | apply le_n]. Qed.

(** ** Runs of whitespace *)

Module RunFacts.
Import Normalizer.

Lemma runs_head_nonempty s rs : runs s <> [] :: rs.
Proof.
  destruct s as [|c r]; simpl; [discriminate|].
  destruct (runs r) as [|[|d r0] rs']; try discriminate.
  destruct (Bool.eqb _ _); discriminate.
Qed.

Lemma runs_nil s : runs s = [] -> s = [].
Proof.
  destruct s as [|c r]; simpl; [reflexivity|].
  destruct (runs r) as [|[|d r0] rs']; try discriminate.
  destruct (Bool.eqb _ _); discriminate.
Qed.

(** The first run starts with the first code unit. *)
Lemma runs_head c r x r0 rs : runs (c :: r) = (x :: r0) :: rs -> x = c.
Proof.
  simpl. destruct (runs r) as [|[|d r1] rs'].
  - intros H; now inversion H.
  - intros H; now inversion H.
  - destruct (Bool.eqb _ _); intros H; now inversion H.
Qed.

Lemma concat_runs s : List.concat (runs s) = s.
Proof.
  induction s as [|c r IH]; simpl; [reflexivity|].
  destruct (runs r) as [|[|d r0] rs] eqn:E.
  - apply runs_nil in E. now subst.
  - now apply runs_head_nonempty in E.
  - destruct (Bool.eqb _ _); simpl in *; now rewrite IH.
Qed.

Lemma long_other c r : is_space c = false -> long_space_run (c :: r) = false.
Proof. intros H. unfold long_space_run. simpl. now rewrite H. Qed.

Lemma long_single c : long_space_run [c] = false.
Proof. unfold long_space_run. simpl. now rewrite andb_false_r. Qed.

Lemma long_run a b r :
  is_space a = true -> is_space b = true -> forallb is_space r = true ->
  long_space_run (a :: b :: r) = true.
Proof. intros Ha Hb Hr. unfold long_space_run. simpl. now rewrite Ha, Hb, Hr. Qed.

Lemma runs_cons c r :
  runs (c :: r) =
    match runs r with
    | (d :: r0) :: rs =>
        if Bool.eqb (is_space c) (is_space d)
        then (c :: d :: r0) :: rs
        else [c] :: (d :: r0) :: rs
    | _ => [[c]]
    end.
Proof. reflexivity. Qed.

Lemma collapse_nil : collapse [] = [].
Proof. reflexivity. Qed.

Ltac first_run E :=
  match type of E with
  | runs _ = [] => apply runs_nil in E; try discriminate
  | runs _ = [] :: _ => now apply runs_head_nonempty in E
  | runs (_ :: _) = (_ :: _) :: _ =>
      let H := fresh in pose proof (runs_head _ _ _ _ _ E) as H; subst
  | _ => idtac
  end.

(** A code unit that is not whitespace is copied. *)
Lemma collapse_cons_other c r :
  is_space c = false -> collapse (c :: r) = c :: collapse r.
Proof.
  intros Hc. unfold collapse. rewrite runs_cons.
  destruct (runs r) as [|[|d r0] rs] eqn:E; first_run E.
  - cbn [filter]. rewrite long_single. reflexivity.
  - destruct (Bool.eqb _ _) eqn:Hd; cbn [filter].
    + apply eqb_prop in Hd. rewrite !long_other by congruence. reflexivity.
    + rewrite long_single. reflexivity.
Qed.

(** A single whitespace code unit is copied. *)
Lemma collapse_cons_single c r :
  is_space c = true ->
  match r with [] => True | d :: _ => is_space d = false end ->
  collapse (c :: r) = c :: collapse r.
Proof.
  intros Hc Hr. unfold collapse. rewrite runs_cons.
  destruct (runs r) as [|[|d0 r0] rs] eqn:E; first_run E.
  - cbn [filter]. rewrite long_single. reflexivity.
  - destruct r as [|d r']; [discriminate|]. first_run E.
    rewrite Hc, Hr. cbn [Bool.eqb filter]. rewrite long_single. reflexivity.
Qed.

(** Whitespace in front of other text is a run of its own. *)
Lemma runs_space_prefix ws tl :
  ws <> [] -> forallb is_space ws = true ->
  match tl with [] => True | d :: _ => is_space d = false end ->
  runs (ws ++ tl) = ws :: runs tl.
Proof.
  intros Hne Hws Htl. induction ws as [|c ws IH]; [congruence|].
  simpl in Hws. apply andb_true_iff in Hws as [Hc Hws].
  destruct ws as [|c' ws'].
  - cbn [app]. rewrite runs_cons. destruct tl as [|d tl']; [reflexivity|].
    destruct (runs (d :: tl')) as [|[|d0 r0] rs] eqn:E; first_run E.
    now rewrite Hc, Htl.
  - change ((c :: c' :: ws') ++ tl) with (c :: (c' :: ws') ++ tl).
    rewrite runs_cons, IH by (congruence || assumption).
    simpl in Hws. apply andb_true_iff in Hws as [Hc' _].
    now rewrite Hc, Hc'.
Qed.

(** Two or more whitespace code units vanish with all that follow. *)
Lemma collapse_cons_run a b r :
  is_space a = true -> is_space b = true ->
  collapse (a :: b :: r) = collapse (dropWhile is_space r).
Proof.
  intros Ha Hb. unfold collapse.
  rewrite <- (take_drop_while is_space r) at 1.
  change (a :: b :: takeWhile is_space r ++ dropWhile is_space r)
    with ((a :: b :: takeWhile is_space r) ++ dropWhile is_space r).
  rewrite runs_space_prefix.
  - cbn [filter]. rewrite long_run by auto using takeWhile_all. reflexivity.
  - discriminate.
  - simpl. now rewrite Ha, Hb, takeWhile_all.
  - destruct (dropWhile is_space r) eqn:E; [exact I|].
    eapply dropWhile_head; eassumption.
Qed.

(** The scan of [/\s\s+/g] drops the long whitespace runs. *)
Lemma replace_spaces_fuel n :
  forall s, (List.length s <= n)%nat ->
            replace_fuel n re_spaces s = collapse s.
Proof.
  induction n as [|n IH]; intros [|c rest] Hlen; simpl in Hlen;
    try reflexivity; try lia.
  cbn [replace_fuel]. destruct rest as [|b r].
  - simpl. rewrite replace_fuel_nil. symmetry.
    destruct (is_space c) eqn:Hc.
    + now apply collapse_cons_single.
    + now apply collapse_cons_other.
  - cbn [re_spaces]. destruct (is_space c) eqn:Hc; cbn [andb].
    + destruct (is_space b) eqn:Hb.
      * cbn [Nat.add skipn].
        rewrite skipn_takeWhile, collapse_cons_run by assumption.
        apply IH. pose proof (dropWhile_length is_space r). simpl in Hlen. lia.
      * rewrite IH by lia. symmetry. now apply collapse_cons_single.
    + rewrite IH by lia. symmetry. now apply collapse_cons_other.
Qed.

Lemma replace_spaces s : replace_g re_spaces s = collapse s.
Proof. apply replace_spaces_fuel, le_n. Qed.

End RunFacts.

Lemma cleanText_normalize text : cleanText text = Normalizer.normalize text.
Proof.
  unfold cleanText, Normalizer.normalize.
  rewrite replace_newline, replace_tab, RunFacts.replace_spaces.
  reflexivity.
Qed.

(** ** What [cleanText] returns is clean *)

Module CleanFacts.
Import Normalizer RunFacts.

Lemma delete_char_notin c s : ~ In c (delete_char c s).
Proof.
  unfold delete_char. intros H. apply filter_In in H as [_ H].
  now rewrite N.eqb_refl in H.
Qed.

Lemma delete_char_incl c x s : In x (delete_char c s) -> In x s.
Proof. unfold delete_char. intros H. now apply filter_In in H. Qed.

Lemma delete_char_id c s : ~ In c s -> delete_char c s = s.
Proof.
  unfold delete_char. induction s as [|x r IH]; simpl; [reflexivity|].
  intros H. destruct (N.eqb_spec x c) as [->|_]; simpl.
  - exfalso. apply H. now left.
  - f_equal. apply IH. tauto.
Qed.

Lemma concat_filter_incl (f : jsstring -> bool) x l :
  In x (List.concat (filter f l)) -> In x (List.concat l).
Proof.
  induction l as [|r l IH]; simpl; [tauto|].
  destruct (f r); simpl; rewrite ?in_app_iff; tauto.
Qed.

Lemma collapse_incl x s : In x (collapse s) -> In x s.
Proof.
  unfold collapse. intros H. apply concat_filter_incl in H.
  now rewrite concat_runs in H.
Qed.

Lemma strip_incl x s : In x (strip s) -> In x s.
Proof.
  unfold strip. rewrite <- in_rev. intros H.
  apply dropWhile_incl in H. rewrite <- in_rev in H.
  now apply dropWhile_incl in H.
Qed.

Lemma no_adjacent_tail c s :
  no_adjacent_space (c :: s) = true -> no_adjacent_space s = true.
Proof.
  destruct s as [|d r]; [reflexivity|]. cbn [no_adjacent_space].
  intros H. now apply andb_true_iff in H.
Qed.

Lemma no_adjacent_dropWhile p s :
  no_adjacent_space s = true -> no_adjacent_space (dropWhile p s) = true.
Proof.
  induction s as [|c r IH]; simpl dropWhile; [reflexivity|].
  destruct (p c); [|trivial]. intros H. eapply IH, no_adjacent_tail, H.
Qed.

Lemma no_adjacent_prefix a b :
  no_adjacent_space (a ++ b) = true -> no_adjacent_space a = true.
Proof.
  induction a as [|c r IH]; [reflexivity|].
  destruct r as [|d r']; [reflexivity|].
  change ((c :: d :: r') ++ b) with (c :: d :: (r' ++ b)).
  cbn [no_adjacent_space]. intros H. apply andb_true_iff in H as [H1 H2].
  rewrite H1. apply IH, H2.
Qed.

Lemma no_adjacent_strip s :
  no_adjacent_space s = true -> no_adjacent_space (strip s) = true.
Proof.
  intros H. unfold strip.
  apply no_adjacent_dropWhile with (p := is_space) in H.
  rewrite (trimEnd_prefix is_space (dropWhile is_space s)) in H.
  eapply no_adjacent_prefix, H.
Qed.

Lemma no_adjacent_cons_other c s :
  is_space c = false -> no_adjacent_space s = true ->
  no_adjacent_space (c :: s) = true.
Proof.
  intros Hc H. destruct s as [|d r]; [reflexivity|].
  cbn [no_adjacent_space] in *. now rewrite Hc, H.
Qed.

Lemma collapse_no_adjacent_fuel n :
  forall s, (List.length s <= n)%nat -> no_adjacent_space (collapse s) = true.
Proof.
  induction n as [|n IH]; intros [|c rest] Hlen; simpl in Hlen;
    try reflexivity; try lia.
  destruct (is_space c) eqn:Hc.
  - destruct rest as [|b r];
      [now rewrite collapse_cons_single|].
    destruct (is_space b) eqn:Hb.
    + rewrite collapse_cons_run by assumption. apply IH.
      pose proof (dropWhile_length is_space r). simpl in Hlen. lia.
    + rewrite collapse_cons_single by assumption.
      rewrite collapse_cons_other by assumption.
      assert (H : no_adjacent_space (collapse (b :: r)) = true)
        by (apply IH; lia).
      rewrite collapse_cons_other in H by assumption.
      change (no_adjacent_space (c :: b :: collapse r))
        with (negb (is_space c && is_space b)
              && no_adjacent_space (b :: collapse r)).
      now rewrite H, Hc, Hb.
  - rewrite collapse_cons_other by assumption.
    apply no_adjacent_cons_other; [assumption | apply IH; lia].
Qed.

Lemma collapse_no_adjacent s : no_adjacent_space (collapse s) = true.
Proof. eapply collapse_no_adjacent_fuel, le_n. Qed.

Lemma collapse_id s : no_adjacent_space s = true -> collapse s = s.
Proof.
  induction s as [|c r IH]; [reflexivity|]. intros H.
  pose proof (no_adjacent_tail _ _ H) as Hr.
  destruct (is_space c) eqn:Hc.
  - rewrite collapse_cons_single, IH; trivial.
    destruct r as [|d r']; [exact I|]. cbn [no_adjacent_space] in H.
    rewrite Hc in H. now destruct (is_space d).
  - now rewrite collapse_cons_other, IH.
Qed.

Lemma strip_no_leading s : starts_with_space (strip s) = false.
Proof.
  unfold strip. set (a := dropWhile is_space s).
  assert (Ha : starts_with_space a = false).
  { subst a. destruct (dropWhile is_space s) eqn:E; [reflexivity|].
    simpl. eapply dropWhile_head, E. }
  rewrite (trimEnd_prefix is_space a) in Ha.
  destruct (rev (dropWhile is_space (rev a))); [reflexivity | exact Ha].
Qed.

Lemma strip_no_trailing s : ends_with_space (strip s) = false.
Proof.
  unfold ends_with_space, strip. rewrite rev_involutive.
  destruct (dropWhile is_space (rev (dropWhile is_space s))) eqn:E;
    [reflexivity|]. simpl. eapply dropWhile_head, E.
Qed.

Lemma strip_id s :
  starts_with_space s = false -> ends_with_space s = false -> strip s = s.
Proof.
  unfold ends_with_space, strip. intros H1 H2.
  rewrite (dropWhile_fix is_space s) by (now destruct s).
  rewrite (dropWhile_fix is_space (rev s)) by (now destruct (rev s)).
  apply rev_involutive.
Qed.

Lemma normalize_no_char c raw :
  c = LF \/ c = TAB -> ~ In c (normalize raw).
Proof.
  intros Hc H. unfold normalize in H.
  apply strip_incl, collapse_incl in H. destruct Hc as [-> | ->].
  - apply delete_char_incl in H. now apply delete_char_notin in H.
  - now apply delete_char_notin in H.
Qed.

Lemma normalize_no_adjacent raw : no_adjacent_space (normalize raw) = true.
Proof. apply no_adjacent_strip, collapse_no_adjacent. Qed.

Lemma normalize_fixpoint s :
  ~ In LF s -> ~ In TAB s -> no_adjacent_space s = true ->
  starts_with_space s = false -> ends_with_space s = false ->
  normalize s = s.
Proof.
  intros H1 H2 H3 H4 H5. unfold normalize.
  rewrite (delete_char_id _ _ H1), (delete_char_id _ _ H2), (collapse_id _ H3).
  now apply strip_id.
Qed.

End CleanFacts.

(** C7. [cleanText] is the normalizer of the specification: it deletes the
    newlines and the tabs, then drops every maximal run of two or more
    whitespace code units and keeps the single ones, then strips both ends.
    It is a total function, sends the empty string to the empty string,
    ["a\n\tb"] to ["ab"] and ["a    b"] to ["ab"]. *)
Theorem cleanText_is_normalize :
  (forall text, cleanText text = Normalizer.normalize text)
  /\ cleanText [] = []
  /\ cleanText (js "a" ++ [LF; TAB] ++ js "b") = js "ab"
  /\ cleanText (js "a    b") = js "ab"
  /\ cleanText (js "a b") = js "a b".
Proof.
  split; [exact cleanText_normalize|]. repeat split; reflexivity.
Qed.

(** C10. [cleanText] is idempotent: what it returns holds no newline, no
    tab, no two adjacent whitespace code units and no whitespace at either
    end, so a second pass changes nothing. *)
Theorem cleanText_idempotent :
  forall text,
    cleanText (cleanText text) = cleanText text
    /\ ~ In LF (cleanText text)
    /\ ~ In TAB (cleanText text)
    /\ Normalizer.no_adjacent_space (cleanText text) = true
    /\ Normalizer.starts_with_space (cleanText text) = false
    /\ Normalizer.ends_with_space (cleanText text) = false.
Proof.
  intros text. rewrite (cleanText_normalize (cleanText text)).
  rewrite (cleanText_normalize text).
  assert (H1 : ~ In LF (Normalizer.normalize text))
    by (apply CleanFacts.normalize_no_char; now left).
  assert (H2 : ~ In TAB (Normalizer.normalize text))
    by (apply CleanFacts.normalize_no_char; now right).
  pose proof (CleanFacts.normalize_no_adjacent text) as H3.
  pose proof (CleanFacts.strip_no_leading
                (Normalizer.collapse
                   (Normalizer.delete_char TAB
                      (Normalizer.delete_char LF text)))) as H4.
  pose proof (CleanFacts.strip_no_trailing
                (Normalizer.collapse
                   (Normalizer.delete_char TAB
                      (Normalizer.delete_char LF text)))) as H5.
  fold (Normalizer.normalize text) in H4, H5.
  repeat split; trivial.
  now apply CleanFacts.normalize_fixpoint.
Qed.

(** ** The time pattern *)

Module TimeFacts.
Import TimePattern.

Lemma takeWhile_app_stop p (a : jsstring) c r :
  forallb p a = true -> p c = false -> takeWhile p (a ++ c :: r) = a.
Proof.
  intros Ha Hc. induction a as [|x a IH]; simpl in *.
  - now rewrite Hc.
  - apply andb_true_iff in Ha as [Hx Ha]. now rewrite Hx, IH.
Qed.

Lemma dropWhile_app_stop p (a : jsstring) c r :
  forallb p a = true -> p c = false -> dropWhile p (a ++ c :: r) = c :: r.
Proof.
  intros Ha Hc. induction a as [|x a IH]; simpl in *.
  - now rewrite Hc.
  - apply andb_true_iff in Ha as [Hx Ha]. now rewrite Hx, IH.
Qed.

(** The matcher succeeds wherever the pattern starts. *)
Lemma timeRegex_at_complete s time abbr :
  TimeShape s time abbr -> timeRegex_at s = Some (time, abbr).
Proof.
  intros [d1 d2 d3 d4 w ab post H1 H2 H3 H4 Hw Hne Hab].
  cbn [app timeRegex_at]. rewrite H1, H2, H3, H4, Hw. cbn [andb N.eqb Pos.eqb].
  rewrite takeWhile_app_stop, dropWhile_app_stop by (assumption || reflexivity).
  destruct ab; [congruence | reflexivity].
Qed.

(** The matcher succeeds only where the pattern starts. *)
Lemma timeRegex_at_sound s time abbr :
  timeRegex_at s = Some (time, abbr) -> TimeShape s time abbr.
Proof.
  destruct s as [|d1 [|d2 [|c [|d3 [|d4 [|w [|p rest]]]]]]]; try discriminate.
  cbn [timeRegex_at].
  destruct (is_digit d1) eqn:H1; [|discriminate].
  destruct (is_digit d2) eqn:H2; [|discriminate].
  destruct (N.eqb_spec c 58) as [->|]; [|discriminate].
  destruct (is_digit d3) eqn:H3; [|discriminate].
  destruct (is_digit d4) eqn:H4; [|discriminate].
  destruct (is_space w) eqn:Hw; [|discriminate].
  destruct (N.eqb_spec p 40) as [->|]; [|discriminate].
  cbn [andb].
  pose proof (take_drop_while is_word rest) as Hrest.
  pose proof (takeWhile_all is_word rest) as Hall.
  destruct (takeWhile is_word rest) as [|a ab] eqn:Et; [discriminate|].
  destruct (dropWhile is_word rest) as [|q post] eqn:Ed; [discriminate|].
  destruct (N.eqb_spec q 41) as [->|]; [|discriminate].
  intros H. inversion H; subst time abbr. rewrite <- Hrest.
  apply (TimeShape_intro d1 d2 d3 d4 w (a :: ab) post); trivial. discriminate.
Qed.

Lemma timeRegex_match_none s : timeRegex_match s = None <-> ~ Occurs s.
Proof.
  induction s as [|c r IH].
  - split; [|reflexivity]. intros _ (pre & m & time & abbr & E & H).
    symmetry in E. apply app_eq_nil in E as [_ ->]. inversion H.
  - cbn [timeRegex_match].
    destruct (timeRegex_at (c :: r)) as [[time abbr]|] eqn:E.
    + split; [discriminate|]. intros H. exfalso. apply H.
      exists [], (c :: r), time, abbr. split; [reflexivity|].
      now apply timeRegex_at_sound.
    + rewrite IH. split; intros H (pre & m & time & abbr & Es & Hm).
      * destruct pre as [|x pre]; simpl in Es.
        -- subst m. apply timeRegex_at_complete in Hm. congruence.
        -- inversion Es; subst. apply H. now exists pre, m, time, abbr.
      * apply H. exists (c :: pre), m, time, abbr. now subst r.
Qed.

(** A match is an occurrence of the pattern, and the leftmost one. *)
Lemma timeRegex_match_some s time abbr :
  timeRegex_match s = Some (time, abbr) ->
  exists pre m, s = pre ++ m /\ TimeShape m time abbr.
Proof.
  induction s as [|c r IH]; cbn [timeRegex_match].
  - simpl. discriminate.
  - destruct (timeRegex_at (c :: r)) as [[t a]|] eqn:E.
    + intros H; inversion H; subst. exists [], (c :: r).
      split; [reflexivity | now apply timeRegex_at_sound].
    + intros H. destruct (IH H) as (pre & m & -> & Hm).
      now exists (c :: pre), m.
Qed.

Lemma timeRegex_match_display d1 d2 d3 d4 abbr :
  is_digit d1 = true -> is_digit d2 = true ->
  is_digit d3 = true -> is_digit d4 = true ->
  abbr <> [] -> forallb is_word abbr = true ->
  timeRegex_match (display d1 d2 d3 d4 abbr)
  = Some ([d1; d2; 58; d3; d4]%N, abbr).
Proof.
  intros H1 H2 H3 H4 Hne Hab.
  assert (E : timeRegex_at (display d1 d2 d3 d4 abbr)
              = Some ([d1; d2; 58; d3; d4]%N, abbr)).
  { apply timeRegex_at_complete. unfold display.
    now apply (TimeShape_intro d1 d2 d3 d4 32 abbr []). }
  unfold display in *. cbn [app timeRegex_match] in *. now rewrite E.
Qed.

Lemma digit_not_colon d : is_digit d = true -> N.eqb 58 d = false.
Proof.
  unfold is_digit. intros H. apply andb_true_iff in H as [_ H].
  apply N.leb_le in H. apply N.eqb_neq. lia.
Qed.

Lemma digit_value d : is_digit d = true -> (0 <= Z.of_N d - 48 <= 9)%Z.
Proof.
  unfold is_digit. intros H. apply andb_true_iff in H as [H1 H2].
  apply N.leb_le in H1, H2. lia.
Qed.

(** [time.split(":").map(Number)] on the first capture group. *)
Lemma split_time d1 d2 d3 d4 :
  is_digit d1 = true -> is_digit d2 = true ->
  is_digit d3 = true -> is_digit d4 = true ->
  List.map Number_ (split (N.eqb 58) [d1; d2; 58; d3; d4]%N)
  = [Num (two_digits d1 d2); Num (two_digits d3 d4)].
Proof.
  intros H1 H2 H3 H4.
  pose proof (digit_not_colon _ H1) as C1.
  pose proof (digit_not_colon _ H2) as C2.
  pose proof (digit_not_colon _ H3) as C3.
  pose proof (digit_not_colon _ H4) as C4.
  assert (C : N.eqb 58 58 = true) by reflexivity.
  revert C1 C2 C3 C4 C. generalize (N.eqb 58). intros sep C1 C2 C3 C4 C.
  cbn [split]. rewrite C1, C2, C3, C4, C. cbn [List.map].
  unfold Number_. cbn [forallb]. rewrite H1, H2, H3, H4. cbn [andb].
  unfold decimal, two_digits. cbn [fold_left].
  repeat f_equal; lia.
Qed.

(** The own properties of the table. *)
Lemma table_entries abbr v :
  getOwn timeZoneOffsets abbr = Some v ->
  In (abbr, v) timeZoneOffsets.
Proof.
  unfold timeZoneOffsets. generalize
    [(js "UTC", Number 0); (js "GMT", Number 0); (js "EST", Number (-5));
     (js "EDT", Number (-4)); (js "CST", Number (-6)); (js "CDT", Number (-5));
     (js "MST", Number (-7)); (js "MDT", Number (-6)); (js "PST", Number (-8));
     (js "PDT", Number (-7))].
  intros l. induction l as [|[k x] l IH]; simpl; [discriminate|].
  destruct (JsString.eqb k abbr) eqn:E.
  - apply jsstring_eqb_eq in E. intros H; inversion H; subst. now left.
  - intros H. right. now apply IH.
Qed.

Lemma in_table_own abbr :
  in_table abbr = true <-> exists off, getOwn timeZoneOffsets abbr = Some (Number off).
Proof.
  unfold in_table, timeZoneOffsets. cbn [existsb getOwn].
  repeat match goal with
         | |- context [JsString.eqb ?k abbr] =>
             destruct (JsString.eqb k abbr); cbn [orb];
             [split; [eauto | reflexivity]|]
         end.
  split; [discriminate | intros [? H]; discriminate].
Qed.

Lemma table_offset abbr off :
  getOwn timeZoneOffsets abbr = Some (Number off) ->
  (-8 <= off <= 0)%Z /\ abbr <> [] /\ forallb is_word abbr = true.
Proof.
  intros H. apply table_entries in H. unfold timeZoneOffsets in H.
  repeat (destruct H as [H|H];
          [inversion H; subst; repeat split; (lia || discriminate || reflexivity)|]).
  contradiction.
Qed.

End TimeFacts.

(** ** [convertToDate] *)

Section ConvertToDate.

Import TimePattern TimeFacts.

Variable World : Type.
Variable Date_now : World -> Z * World.

Lemma get_own o key v : getOwn o key = Some v -> get o key = v.
Proof. unfold get. now intros ->. Qed.

(** What a match with an abbreviation of the table returns, before any
    bound on the hour. *)
Lemma convertToDate_table d1 d2 d3 d4 abbr off w :
  is_digit d1 = true -> is_digit d2 = true ->
  is_digit d3 = true -> is_digit d4 = true ->
  getOwn timeZoneOffsets abbr = Some (Number off) ->
  convertToDate Date_now (display d1 d2 d3 d4 abbr) w
  = (inr (mkDate
            (TimeClip
               (Num (Day (fst (Date_now w)) * msPerDay
                     + ((two_digits d1 d2 - off) * msPerHour
                        + two_digits d3 d4 * msPerMinute
                        + 0 * msPerSecond + 0))))),
     snd (Date_now w)).
Proof.
  intros H1 H2 H3 H4 Hoff.
  destruct (table_offset _ _ Hoff) as (_ & Hne & Hword).
  unfold convertToDate.
  rewrite timeRegex_match_display, split_time by assumption.
  rewrite (get_own _ _ _ Hoff). cbn [nth ToNumber sub].
  destruct (Date_now w) as [now w']. reflexivity.
Qed.

(** [throw new Error("Invalid time format")] is reached exactly when the
    pattern occurs nowhere in the input. *)
Lemma convertToDate_invalid_iff s w :
  fst (convertToDate Date_now s w) = inl InvalidTimeFormat <-> ~ Occurs s.
Proof.
  rewrite <- timeRegex_match_none. unfold convertToDate.
  destruct (timeRegex_match s) as [[time abbr]|]; [|now split].
  split; [|discriminate]. intros H. exfalso.
  destruct (get timeZoneOffsets abbr); cbn in H; try discriminate.
  - destruct (Date_now w); discriminate.
  - destruct (Date_now w); discriminate.
Qed.

(** [throw new Error("Unknown time zone abbreviation")] is reached exactly
    when the matched abbreviation names neither an entry of the table nor
    a member of [Object.prototype]. *)
Lemma convertToDate_unknown_iff s time abbr w :
  timeRegex_match s = Some (time, abbr) ->
  (fst (convertToDate Date_now s w) = inl UnknownTimeZone
   <-> getOwn timeZoneOffsets abbr = None
       /\ getOwn Object_prototype abbr = None).
Proof.
  intros Hm. unfold convertToDate. rewrite Hm. unfold get.
  destruct (getOwn timeZoneOffsets abbr) as [v|] eqn:Eo.
  - apply table_entries in Eo. split; [|intros [? _]; discriminate].
    intros H. exfalso. unfold timeZoneOffsets in Eo.
    repeat (destruct Eo as [Eo|Eo];
            [inversion Eo; subst; cbn in H; destruct (Date_now w);
             discriminate|]).
    contradiction.
  - destruct (getOwn Object_prototype abbr) as [v|] eqn:Ep.
    + split; [|intros [_ ?]; discriminate]. intros H. exfalso.
      unfold Object_prototype in Ep. cbn [List.map getOwn] in Ep.
      repeat match type of Ep with
             | (if ?b then _ else _) = _ =>
                 destruct b;
                 [inversion Ep; subst; cbn in H; destruct (Date_now w);
                  discriminate|]
             end.
      discriminate.
    + split; [now split | reflexivity].
Qed.

End ConvertToDate.

(** The two failures that the specification lists. *)
Example convertToDate_XYZ :
  convertToDate (Fixture.clock Fixture.morning) (js "05:30 (XYZ)") tt
  = (inl UnknownTimeZone, tt).
Proof. reflexivity. Qed.

Example convertToDate_pm :
  convertToDate (Fixture.clock Fixture.morning) (js "5:30pm") tt
  = (inl InvalidTimeFormat, tt).
Proof. reflexivity. Qed.

(** The pattern is searched for, not anchored. *)
Example convertToDate_embedded :
  convertToDate (Fixture.clock Fixture.morning) (js "Fajr 05:30 (EST) daily") tt
  = (inr (mkDate (Num 1762165800000)), tt).
Proof. reflexivity. Qed.

(** C1 (amended). For an input [HH:MM (TZ)] whose abbreviation is in the
    table, with [localHour - offset] below 24 and the minute below 60,
    [convertToDate] returns the time value that lies [localHour - offset]
    hours and the parsed minutes after the UTC midnight of the day the clock
    reads: its UTC hour is [localHour - offset], its minute is the parsed
    minute, its seconds and milliseconds are zero and its UTC day is that
    of the clock. *)
Theorem convertToDate_same_day :
  forall (World : Type) (Date_now : World -> Z * World) (w : World)
         (d1 d2 d3 d4 : N) (abbr : jsstring) (off : Z),
    is_digit d1 = true -> is_digit d2 = true ->
    is_digit d3 = true -> is_digit d4 = true ->
    getOwn timeZoneOffsets abbr = Some (Number off) ->
    TimePattern.clock_in_range (fst (Date_now w)) ->
    (TimePattern.two_digits d1 d2 - off < 24)%Z ->
    (TimePattern.two_digits d3 d4 < 60)%Z ->
    exists t : Z,
      convertToDate Date_now (TimePattern.display d1 d2 d3 d4 abbr) w
      = (inr (mkDate (Num t)), snd (Date_now w))
      /\ Day t = Day (fst (Date_now w))
      /\ HourFromTime t = (TimePattern.two_digits d1 d2 - off)%Z
      /\ MinFromTime t = TimePattern.two_digits d3 d4
      /\ SecFromTime t = 0%Z
      /\ msFromTime t = 0%Z.
Proof.
  intros World Date_now w d1 d2 d3 d4 abbr off H1 H2 H3 H4 Hoff Hclock Hh Hm.
  rewrite (convertToDate_table World Date_now) with (off := off) by assumption.
  destruct (TimeFacts.table_offset _ _ Hoff) as (Hrange & _ & _).
  pose proof (TimeFacts.digit_value _ H1). pose proof (TimeFacts.digit_value _ H2).
  pose proof (TimeFacts.digit_value _ H3). pose proof (TimeFacts.digit_value _ H4).
  unfold TimePattern.two_digits in *. unfold TimePattern.clock_in_range in Hclock.
  set (now := fst (Date_now w)) in *.
  set (h := (10 * (Z.of_N d1 - 48) + (Z.of_N d2 - 48) - off)%Z) in *.
  set (m := (10 * (Z.of_N d3 - 48) + (Z.of_N d4 - 48))%Z) in *.
  unfold Day, HourFromTime, MinFromTime, SecFromTime, msFromTime, TimeClip,
    msPerDay, msPerHour, msPerMinute, msPerSecond in *.
  assert (Hh0 : (0 <= h)%Z) by (subst h; lia).
  assert (Hm0 : (0 <= m)%Z) by (subst m; lia).
  clearbody h m now.
  exists (now / 86400000 * 86400000 + (h * 3600000 + m * 60000 + 0 * 1000 + 0))%Z.
  assert (Hclip : (8640000000000000 <?
                   Z.abs (now / 86400000 * 86400000
                          + (h * 3600000 + m * 60000 + 0 * 1000 + 0)))%Z = false).
  { apply Z.ltb_ge. Z.to_euclidean_division_equations. lia. }
  rewrite Hclip. split; [reflexivity|].
  repeat split; Z.to_euclidean_division_equations; lia.
Qed.

(** The instance of the specification: ["05:30 (EST)"] gives UTC hour 10,
    minute 30, on the day of the clock. *)
Lemma convertToDate_same_day_witness :
  exists t : Z,
    convertToDate (Fixture.clock Fixture.morning) (js "05:30 (EST)") tt
    = (inr (mkDate (Num t)), tt)
    /\ Day t = Day Fixture.morning
    /\ HourFromTime t = 10%Z
    /\ MinFromTime t = 30%Z
    /\ SecFromTime t = 0%Z
    /\ msFromTime t = 0%Z.
Proof.
  apply (convertToDate_same_day unit (Fixture.clock Fixture.morning) tt
           48 53 51 48 (js "EST") (-5));
    try reflexivity.
  unfold TimePattern.clock_in_range, Fixture.clock, Fixture.morning, msPerDay.
  cbn [fst]. lia.
Defined.

(** Against C1 as stated: ["23:30 (EST)"] asks for hour 28, and the time
    value lands at 04:30 UTC of the following day. *)
Lemma convertToDate_late_hour_carries :
  exists t : Z,
    convertToDate (Fixture.clock Fixture.morning) (js "23:30 (EST)") tt
    = (inr (mkDate (Num t)), tt)
    /\ HourFromTime t <> (TimePattern.two_digits 50 51 - (-5))%Z
    /\ HourFromTime t = 4%Z
    /\ Day t = (Day Fixture.morning + 1)%Z
    /\ Day t <> Day Fixture.morning.
Proof.
  exists 1762230600000%Z. repeat split; try reflexivity; discriminate.
Qed.

(** C2 (the code at the failing input). An abbreviation that names a member
    of [Object.prototype] is not one of the ten entries of the table, yet
    the lookup does not give [undefined]: no error is thrown and the result
    is an invalid date. *)
Theorem convertToDate_inherited_member :
  forall (World : Type) (Date_now : World -> Z * World) (w : World),
    TimePattern.in_table (js "constructor") = false
    /\ convertToDate Date_now (js "05:30 (constructor)") w
       = (inr (mkDate NaN), snd (Date_now w)).
Proof.
  intros World Date_now w. split; [reflexivity|].
  assert (E : convertToDate Date_now (js "05:30 (constructor)") w
              = let (now, w') := Date_now w in (inr (mkDate NaN), w'))
    by reflexivity.
  rewrite E. now destruct (Date_now w).
Qed.

(** ** The document tree *)

Module TreeFacts.
Import DocSpec.

(** Induction over a node with the hypothesis for all its children. *)
Lemma Node_induction (P : Node -> Prop) :
  (forall data, P (Text data)) ->
  (forall data, P (Comment data)) ->
  (forall name attribs children,
      Forall P children -> P (Element name attribs children)) ->
  forall n, P n.
Proof.
  intros HT HC HE. fix IH 1. intros [data|data|name attribs children].
  - apply HT.
  - apply HC.
  - apply HE. induction children as [|c r IHr]; constructor.
    + apply IH.
    + exact IHr.
Qed.

Lemma descendants_sound x n : In x (descendants n) -> Descendant x n.
Proof.
  revert x. induction n as [data|data|name attribs children IH]
    using Node_induction; intros x; cbn [descendants]; try contradiction.
  rewrite in_flat_map. intros (c & Hc & Hx).
  rewrite Forall_forall in IH. destruct Hx as [<-|Hx].
  - now apply Descendant_child, Child_intro.
  - eapply Descendant_step; [apply IH; eassumption | now apply Child_intro].
Qed.

Lemma descendants_complete x n : Descendant x n -> In x (descendants n).
Proof.
  induction 1 as [c n Hc | c d n _ IH Hd].
  - destruct Hc as [c name attribs children Hin].
    cbn [descendants]. rewrite in_flat_map.
    exists c. split; [assumption | now left].
  - destruct Hd as [d name attribs children Hin].
    cbn [descendants]. rewrite in_flat_map.
    exists d. split; [assumption | now right].
Qed.

Lemma descendants_iff x n : In x (descendants n) <-> Descendant x n.
Proof. split; [apply descendants_sound | apply descendants_complete]. Qed.

(** [$(div).find(sel)]: the descendants of [div] that match. *)
Lemma find_iff div sel x :
  In x (find [div] sel) <-> Descendant x div /\ matches sel x = true.
Proof.
  unfold find. cbn [flat_map]. rewrite app_nil_r, filter_In.
  now rewrite descendants_iff.
Qed.

(** [$(sel)]: the nodes of the document that match. *)
Lemma query_iff d sel x :
  In x (query d sel) <-> InDocument x d /\ matches sel x = true.
Proof.
  unfold query, all_nodes, InDocument. rewrite filter_In, in_flat_map.
  split; intros [(root & Hr & Hx) Hm]; (split; [|assumption]);
    exists root; (split; [assumption|]).
  - destruct Hx as [<-|Hx]; [now left | right; now apply descendants_iff].
  - destruct Hx as [->|Hx]; [now left | right; now apply descendants_iff].
Qed.

Lemma eq_out_of_range (x : Selection) i :
  (List.length x <= i)%nat -> eq x i = [].
Proof.
  intros H. unfold eq. now rewrite (proj2 (nth_error_None x i) H).
Qed.

(** [each] with a callback that pushes onto an array. *)
Lemma each_push {A : Type} (h : Node -> list A) (x : Selection) :
  forall (f : Node -> list A -> list A) init,
    (forall n acc, f n acc = acc ++ h n) ->
    each x f init = init ++ flat_map h x.
Proof.
  unfold each. induction x as [|n r IH]; intros f init Hf; cbn [fold_left flat_map].
  - now rewrite app_nil_r.
  - rewrite IH by assumption. now rewrite Hf, <- app_assoc.
Qed.

Lemma flat_map_singleton {A B : Type} (g : A -> B) (l : list A) :
  flat_map (fun a => [g a]) l = List.map g l.
Proof. induction l as [|a r IH]; cbn; [reflexivity | now rewrite IH]. Qed.

Lemma length_flat_map {A B : Type} (g : A -> list B) (l : list A) :
  List.length (flat_map g l) = list_sum (List.map (fun a => List.length (g a)) l).
Proof.
  induction l as [|a r IH]; cbn; [reflexivity|].
  now rewrite length_app, IH.
Qed.

End TreeFacts.

(** ** Link discovery *)

Lemma mosqueURLs_flat_map dollar :
  mosqueURLs dollar
  = flat_map (fun div => List.map DocSpec.url_of_link (find [div] (Tag (js "a"))))
      (query dollar (Class (js "titleBS"))).
Proof.
  unfold mosqueURLs.
  rewrite TreeFacts.each_push
    with (h := fun div => List.map DocSpec.url_of_link (find [div] (Tag (js "a")))).
  - reflexivity.
  - intros div acc.
    rewrite TreeFacts.each_push with (h := fun link => [DocSpec.url_of_link link]).
    + now rewrite TreeFacts.flat_map_singleton.
    + reflexivity.
Qed.


(** ** The [try] block *)

Section Extract.

Import DocSpec.

Variable World : Type.
Variable Date_now : World -> Z * World.

Lemma each_push_quickFacts (f : Node -> jsstring) (x : Selection) :
  forall m,
    each x (fun e => push_quickFacts (f e)) m
    = {| description := description m; address := address m; url := url m;
         quickFacts := quickFacts m ++ List.map f x;
         governance := governance m; prayerTimings := prayerTimings m |}.
Proof.
  unfold each. induction x as [|e r IH]; intros [d a u q g p];
    cbn [fold_left List.map].
  - cbn. now rewrite app_nil_r.
  - rewrite IH. cbn. now rewrite <- app_assoc.
Qed.

Lemma each_push_governance (f : Node -> jsstring) (x : Selection) :
  forall m,
    each x (fun e => push_governance (f e)) m
    = {| description := description m; address := address m; url := url m;
         quickFacts := quickFacts m;
         governance := governance m ++ List.map f x;
         prayerTimings := prayerTimings m |}.
Proof.
  unfold each. induction x as [|e r IH]; intros [d a u q g p];
    cbn [fold_left List.map].
  - cbn. now rewrite app_nil_r.
  - rewrite IH. cbn. now rewrite <- app_assoc.
Qed.

(** The block assigns the texts and the tags, then converts the times. *)
Lemma extract_stub dollar w u :
  extract Date_now dollar (w, stub u)
  = assign_timings Date_now (query dollar (Class (js "microLink")))
      (w, texts_record dollar u).
Proof.
  unfold extract, bind, update, modify. cbn [fst snd].
  rewrite each_push_quickFacts, each_push_governance. reflexivity.
Qed.

Lemma convertToDate_converts s w :
  converts s = true ->
  exists d, convertToDate Date_now s w = (inr d, snd (Date_now w)).
Proof.
  unfold converts, convertToDate.
  destruct (timeRegex_match s) as [[time abbr]|]; [|discriminate].
  destruct (get timeZoneOffsets abbr); [discriminate| |]; intros _;
    destruct (Date_now w); eexists; reflexivity.
Qed.

Lemma convertToDate_fails s w :
  converts s = false ->
  exists e, convertToDate Date_now s w = (inl e, w)
            /\ (e = InvalidTimeFormat \/ e = UnknownTimeZone).
Proof.
  unfold converts, convertToDate.
  destruct (timeRegex_match s) as [[time abbr]|].
  - destruct (get timeZoneOffsets abbr); try discriminate.
    intros _. exists UnknownTimeZone. split; [reflexivity | now right].
  - intros _. exists InvalidTimeFormat. split; [reflexivity | now left].
Qed.

Lemma assign_timing_ok set micro i w m :
  converts (cleanText (text (eq micro i))) = true ->
  exists d,
    assign_timing Date_now set micro i (w, m)
    = (inr tt, (snd (Date_now w), set_timings (set d) m))
    /\ convertToDate Date_now (cleanText (text (eq micro i))) w
       = (inr d, snd (Date_now w)).
Proof.
  intros H. destruct (convertToDate_converts _ w H) as [d Hd].
  exists d. split; [|assumption].
  unfold assign_timing, bind, on_fst, update, modify. cbn [fst snd].
  now rewrite Hd.
Qed.

Lemma assign_timing_fails set micro i w m :
  converts (cleanText (text (eq micro i))) = false ->
  exists e,
    assign_timing Date_now set micro i (w, m) = (inl e, (w, m))
    /\ (e = InvalidTimeFormat \/ e = UnknownTimeZone).
Proof.
  intros H. destruct (convertToDate_fails _ w H) as (e & He & Hcase).
  exists e. split; [|assumption].
  unfold assign_timing, bind, on_fst. cbn [fst snd]. now rewrite He.
Qed.

(** Beyond the last element the text is empty and does not convert. *)
Lemma converts_out_of_range (micro : Selection) i :
  (List.length micro <= i)%nat ->
  converts (cleanText (text (eq micro i))) = false.
Proof. intros H. now rewrite TreeFacts.eq_out_of_range. Qed.

Ltac timing_step C :=
  match goal with
  | |- context [assign_timing Date_now ?set ?micro ?i (?w, ?m)] =>
      destruct (converts (cleanText (text (eq micro i)))) eqn:C;
      [ let d := fresh "d" in
        let E := fresh "E" in
        let Hd := fresh "Hd" in
        destruct (assign_timing_ok set micro i w m C) as (d & E & Hd);
        rewrite E; cbv beta iota
      | let e := fresh "e" in
        let E := fresh "E" in
        let He := fresh "He" in
        destruct (assign_timing_fails set micro i w m C) as (e & E & He);
        rewrite E; cbv beta iota ]
  end.

Ltac timing_done :=
  do 3 eexists; split; [reflexivity|];
  cbn [fajr snrs dhur asr magh isha populated converted_from andb
       prayerTimings set_timings no_timings
       set_fajr set_snrs set_dhur set_asr set_magh set_isha];
  repeat split; eauto.

(** The outcome of the six conversions on a record without timings. *)
Lemma assign_timings_spec micro w m :
  prayerTimings m = no_timings ->
  let ok i := converts (cleanText (text (eq micro i))) in
  let from i := converted_from Date_now (cleanText (text (eq micro i))) in
  exists r w' p,
    assign_timings Date_now micro (w, m)
    = (r, (w', set_timings (fun _ => p) m))
    /\ populated (fajr p) = ok 0%nat
    /\ populated (snrs p) = ok 0%nat && ok 1%nat
    /\ populated (dhur p) = ok 0%nat && ok 1%nat && ok 2%nat
    /\ populated (asr p) = ok 0%nat && ok 1%nat && ok 2%nat && ok 3%nat
    /\ populated (magh p)
       = ok 0%nat && ok 1%nat && ok 2%nat && ok 3%nat && ok 4%nat
    /\ populated (isha p)
       = ok 0%nat && ok 1%nat && ok 2%nat && ok 3%nat && ok 4%nat && ok 5%nat
    /\ from 0%nat (fajr p) /\ from 1%nat (snrs p) /\ from 2%nat (dhur p)
    /\ from 3%nat (asr p) /\ from 4%nat (magh p) /\ from 5%nat (isha p)
    /\ match r with
       | inl e => (e = InvalidTimeFormat \/ e = UnknownTimeZone)
                  /\ isha p = None
       | inr _ => populated (isha p) = true
       end.
Proof.
  destruct m as [de ad ur qf go pt]. cbn [prayerTimings]. intros ->.
  cbv zeta. unfold assign_timings, bind.
  timing_step C0; [|timing_done].
  timing_step C1; [|timing_done].
  timing_step C2; [|timing_done].
  timing_step C3; [|timing_done].
  timing_step C4; [|timing_done].
  timing_step C5; timing_done.
Qed.

End Extract.

(** ** The loop over the links *)

Section Scrape.

Import DocSpec.

Variable World : Type.
Variable Date_now : World -> Z * World.
Variable axios_get : jsstring -> World -> (exn + jsstring) * World.
Variable cheerio_load : jsstring -> exn + Document.

(** Where the [try] block can stop. *)
Lemma scrape_try_cases u w :
  (exists e w1,
      axios_get u w = (inl e, w1)
      /\ scrape_try Date_now axios_get cheerio_load u (w, stub u) = (inl e, (w1, stub u)))
  \/ (exists data w1 e,
         axios_get u w = (inr data, w1) /\ cheerio_load data = inl e
         /\ scrape_try Date_now axios_get cheerio_load u (w, stub u) = (inl e, (w1, stub u)))
  \/ (exists data w1 dollar,
         axios_get u w = (inr data, w1) /\ cheerio_load data = inr dollar
         /\ scrape_try Date_now axios_get cheerio_load u (w, stub u) = extract Date_now dollar (w1, stub u)).
Proof.
  unfold scrape_try, bind, on_fst, of_sum. cbn [fst snd].
  destruct (axios_get u w) as [[e|data] w1].
  - left. now exists e, w1.
  - right. cbv beta iota. destruct (cheerio_load data) as [e|dollar] eqn:L.
    + left. now exists data, w1, e.
    + right. now exists data, w1, dollar.
Qed.



Lemma scrape_one_push u acc w :
  fst (scrape_one Date_now axios_get cheerio_load u (acc, w))
  = acc ++ [snd (snd (scrape_try Date_now axios_get cheerio_load u (w, stub u)))].
Proof.
  unfold scrape_one.
  now destruct (scrape_try Date_now axios_get cheerio_load u (w, stub u))
    as [r [w' m']].
Qed.


End Scrape.

(** ** The claims about link discovery and the records *)

(** C9. The links are collected container by container, the [.titleBS]
    elements in document order and inside each its [a] descendants in
    document order; every URL is [DOMAIN] followed by the [href] of its
    anchor; nothing is removed, so there are as many URLs as anchors under
    containers, and a document without containers gives none. *)
Theorem mosqueURLs_discovery :
  forall dollar : Document,
    mosqueURLs dollar
    = flat_map
        (fun div => List.map DocSpec.url_of_link (find [div] (Tag (js "a"))))
        (query dollar (Class (js "titleBS")))
    /\ (forall div x,
           In x (find [div] (Tag (js "a")))
           <-> DocSpec.Descendant x div /\ matches (Tag (js "a")) x = true)
    /\ (forall name attribs children,
           DocSpec.url_of_link (Element name attribs children)
           = DOMAIN ++ template (getAttribute attribs (js "href")))
    /\ List.length (mosqueURLs dollar)
       = list_sum
           (List.map (fun div => List.length (find [div] (Tag (js "a"))))
              (query dollar (Class (js "titleBS"))))
    /\ mosqueURLs [] = [].
Proof.
  intros dollar. split; [apply mosqueURLs_flat_map|].
  split; [intros div x; apply TreeFacts.find_iff|].
  split; [reflexivity|]. split; [|reflexivity].
  rewrite mosqueURLs_flat_map, TreeFacts.length_flat_map.
  f_equal. apply map_ext. intros div. apply length_map.
Qed.

(** [N] containers with one anchor each give [N] URLs. *)
Lemma mosqueURLs_one_anchor_each dollar :
  Forall (fun div => List.length (find [div] (Tag (js "a"))) = 1%nat)
    (query dollar (Class (js "titleBS"))) ->
  List.length (mosqueURLs dollar)
  = List.length (query dollar (Class (js "titleBS"))).
Proof.
  rewrite mosqueURLs_flat_map, TreeFacts.length_flat_map.
  induction 1 as [|div r Hdiv _ IH]; cbn [List.map list_sum List.length].
  - reflexivity.
  - rewrite length_map, Hdiv. cbn [list_sum fold_right Nat.add]. f_equal. exact IH.
Qed.

Example mosqueURLs_index :
  mosqueURLs Fixture.index_page
  = [DOMAIN ++ js "/mosque/1"; DOMAIN ++ js "/mosque/2"].
Proof. reflexivity. Qed.


(** Two links, the first of which cannot be fetched: two records, the
    first with its URL only. *)
Example scrape_half_site :
  List.map (fun m => (url m, address m, description m,
                      DocSpec.populated (isha (prayerTimings m))))
    (Fixture.run Fixture.half_site)
  = [ (Some (DOMAIN ++ js "/mosque/1"), None, None, false);
      (Some (DOMAIN ++ js "/mosque/2"), Some (js "12 Main St"),
       Some (js "Open daily"), true) ]
  /\ nth_error (Fixture.run Fixture.half_site) 0
     = Some (stub (DOMAIN ++ js "/mosque/1")).
Proof. split; vm_compute; reflexivity. Qed.



(** The record of that page, slot by slot. *)
Example scrape_try_four_times :
  let u := DOMAIN ++ js "/mosque/1" in
  let pages := Fixture.one_link_site Fixture.four_times_page in
  let result :=
    scrape_try Fixture.Date_now (Fixture.axios_get pages)
      (Fixture.cheerio_load pages) u (tt, stub u) in
  fst result = inl InvalidTimeFormat
  /\ List.map (fun slot => DocSpec.populated
                             (slot (prayerTimings (snd (snd result)))))
       [fajr; snrs; dhur; asr; magh; isha]
     = [true; true; true; true; false; false]
  /\ List.map (DocSpec.slot_in_sequence Fixture.four_times_page)
       [0; 1; 2; 3; 4; 5]%nat
     = [true; true; true; true; false; false].
Proof. vm_compute. repeat split. Qed.


(** ** The claims about the fields of a record *)

(** C5 (amended). The address is the normalized text of the first
    [.bodyLink] element and the description that of the second; where the
    element is missing the field is the empty string, not absent. The two
    assignments cannot fail: an error of the block comes from a time
    conversion. *)
Theorem extract_address_description :
  forall (World : Type) (Date_now : World -> Z * World)
         (dollar : Document) (w : World) (u : jsstring),
    let divs := query dollar (Class (js "bodyLink")) in
    let result := extract Date_now dollar (w, stub u) in
    address (snd (snd result))
    = Some match divs with
           | first :: _ => DocSpec.clean_text_of first
           | [] => []
           end
    /\ description (snd (snd result))
       = Some match divs with
              | _ :: second :: _ => DocSpec.clean_text_of second
              | _ => []
              end
    /\ match fst result with
       | inl e => e = InvalidTimeFormat \/ e = UnknownTimeZone
       | inr _ => True
       end.
Proof.
  intros World Date_now dollar w u divs result. subst result.
  rewrite extract_stub.
  destruct (assign_timings_spec World Date_now
              (query dollar (Class (js "microLink"))) w
              (DocSpec.texts_record dollar u) eq_refl)
    as (r & w' & p & Ep & _ & _ & _ & _ & _ & _ & _ & _ & _ & _ & _ & _ & Hr).
  rewrite Ep. cbn [fst snd set_timings address description DocSpec.texts_record].
  fold divs. repeat split.
  - destruct divs as [|e1 r']; reflexivity.
  - destruct divs as [|e1 [|e2 r']]; reflexivity.
  - destruct r as [e|[]]; [apply Hr | exact I].
Qed.

(** Against C5 as stated: with one [.bodyLink] element there is no second
    match, and the description is the empty string, not absent. *)
Lemma missing_description_is_empty :
  List.length (query Fixture.address_only_page (Class (js "bodyLink"))) = 1%nat
  /\ description
       (snd (snd (extract Fixture.Date_now Fixture.address_only_page
                    (tt, stub (DOMAIN ++ js "/mosque/1")))))
     = Some []
  /\ description
       (snd (snd (extract Fixture.Date_now Fixture.address_only_page
                    (tt, stub (DOMAIN ++ js "/mosque/1")))))
     <> None.
Proof. vm_compute. repeat split. discriminate. Qed.

(** C8 (amended). [quickFacts] holds the normalized texts of all the [div]
    descendants, in document order, of the [tbody] at index 212 among the
    [tbody] elements of the page, and [governance] those of the [tbody] at
    index 214; both are empty when there is no such [tbody]. *)
Theorem extract_tags :
  forall (World : Type) (Date_now : World -> Z * World)
         (dollar : Document) (w : World) (u : jsstring),
    let tbodies := query dollar (Tag (js "tbody")) in
    let record := snd (snd (extract Date_now dollar (w, stub u))) in
    quickFacts record
    = DocSpec.descendant_tags (Tag (js "div")) (eq tbodies 212)
    /\ governance record
       = DocSpec.descendant_tags (Tag (js "div")) (eq tbodies 214)
    /\ (forall tbody x,
           In x (find [tbody] (Tag (js "div")))
           <-> DocSpec.Descendant x tbody /\ matches (Tag (js "div")) x = true)
    /\ (forall i, DocSpec.descendant_tags (Tag (js "div"))
                    (eq tbodies (List.length tbodies + i)) = []).
Proof.
  intros World Date_now dollar w u tbodies record. subst record.
  rewrite extract_stub.
  destruct (assign_timings_spec World Date_now
              (query dollar (Class (js "microLink"))) w
              (DocSpec.texts_record dollar u) eq_refl)
    as (r & w' & p & Ep & _).
  rewrite Ep. split; [reflexivity|]. split; [reflexivity|].
  split; [intros tbody x; apply TreeFacts.find_iff|].
  intros i. rewrite TreeFacts.eq_out_of_range by lia. reflexivity.
Qed.

(** Against C8 as stated: the tag sits in a cell of a row of the table
    body, so it is a descendant and no direct child; the program collects
    it, the direct children give nothing. *)
Lemma tags_are_descendants :
  quickFacts
    (snd (snd (extract Fixture.Date_now Fixture.facts_page
                 (tt, stub (DOMAIN ++ js "/mosque/1")))))
  = [js "Parking"]
  /\ DocSpec.child_tags (Tag (js "div"))
       (eq (query Fixture.facts_page (Tag (js "tbody"))) 212)
     = [].
Proof. split; vm_compute; reflexivity. Qed.

(** C6 (amended). The texts of the [.microLink] elements 0 to 5 are
    converted in that order for the slots fajr, sunrise, dhur, asr, maghrib
    and isha, and the first text that does not convert ends the block: a
    slot is populated exactly when the texts of all the slots up to and
    including it convert, and then it holds the date converted from its own
    text. An index beyond the last element gives the empty text, which does
    not convert. *)
Theorem extract_timings_in_sequence :
  forall (World : Type) (Date_now : World -> Z * World)
         (dollar : Document) (w : World) (u : jsstring),
    let p := prayerTimings (snd (snd (extract Date_now dollar (w, stub u)))) in
    let from i := DocSpec.converted_from Date_now (DocSpec.timing_text dollar i) in
    DocSpec.populated (fajr p) = DocSpec.slot_in_sequence dollar 0
    /\ DocSpec.populated (snrs p) = DocSpec.slot_in_sequence dollar 1
    /\ DocSpec.populated (dhur p) = DocSpec.slot_in_sequence dollar 2
    /\ DocSpec.populated (asr p) = DocSpec.slot_in_sequence dollar 3
    /\ DocSpec.populated (magh p) = DocSpec.slot_in_sequence dollar 4
    /\ DocSpec.populated (isha p) = DocSpec.slot_in_sequence dollar 5
    /\ from 0%nat (fajr p) /\ from 1%nat (snrs p) /\ from 2%nat (dhur p)
    /\ from 3%nat (asr p) /\ from 4%nat (magh p) /\ from 5%nat (isha p)
    /\ (forall i,
           DocSpec.converts
             (DocSpec.timing_text dollar
                (List.length (query dollar (Class (js "microLink"))) + i))
           = false).
Proof.
  intros World Date_now dollar w u p from. subst p from.
  rewrite extract_stub.
  destruct (assign_timings_spec World Date_now
              (query dollar (Class (js "microLink"))) w
              (DocSpec.texts_record dollar u) eq_refl)
    as (r & w' & p & Ep & H0 & H1 & H2 & H3 & H4 & H5
        & F0 & F1 & F2 & F3 & F4 & F5 & _).
  rewrite Ep. cbn [fst snd set_timings prayerTimings].
  cbn [DocSpec.slot_in_sequence]. unfold DocSpec.timing_text.
  repeat (split; [assumption|]).
  intros i. apply converts_out_of_range. lia.
Qed.

(** With exactly four times the first four slots are populated and the
    last two are absent. *)
Example four_times :
  List.map
    (fun m => List.map (fun slot => DocSpec.populated (slot (prayerTimings m)))
                [fajr; snrs; dhur; asr; magh; isha])
    (Fixture.run (Fixture.one_link_site Fixture.four_times_page))
  = [[true; true; true; true; false; false]].
Proof. vm_compute. reflexivity. Qed.

(** Against C6 as stated: the first of six elements is no time, the second
    is one and would populate its slot by itself, yet the error of the
    first conversion leaves every slot absent. *)
Lemma first_failure_empties_later_slots :
  DocSpec.slot_by_itself Fixture.bad_fajr_page 1 = true
  /\ snrs (prayerTimings
             (snd (snd (extract Fixture.Date_now Fixture.bad_fajr_page
                          (tt, stub (DOMAIN ++ js "/mosque/1"))))))
     = None
  /\ List.map prayerTimings
       (Fixture.run (Fixture.one_link_site Fixture.bad_fajr_page))
     = [no_timings].
Proof. vm_compute. repeat split. Qed.

(** * Further properties *)

(** ** [cleanText] *)

Module CleanMore.
Import Normalizer RunFacts CleanFacts Props.

Lemma dropWhile_all p (s : jsstring) :
  forallb p s = true -> dropWhile p s = [].
Proof.
  induction s as [|c r IH]; simpl; [reflexivity|].
  intros H. apply andb_true_iff in H as [Hc Hr]. now rewrite Hc, IH.
Qed.

Lemma forallb_filter (p f : N -> bool) (s : jsstring) :
  forallb p s = true -> forallb p (filter f s) = true.
Proof.
  induction s as [|c r IH]; simpl; [reflexivity|].
  intros H. apply andb_true_iff in H as [Hc Hr].
  destruct (f c); simpl; [rewrite Hc|]; now apply IH.
Qed.

Lemma collapse_all_space s :
  forallb is_space s = true -> strip (collapse s) = [].
Proof.
  destruct s as [|a [|b r]]; [reflexivity| |]; simpl forallb; intros H.
  - rewrite andb_true_r in H. rewrite collapse_cons_single by trivial.
    unfold strip. cbn [dropWhile collapse]. rewrite collapse_nil.
    cbn [dropWhile]. now rewrite H.
  - apply andb_true_iff in H as [Ha H]. apply andb_true_iff in H as [Hb Hr].
    rewrite collapse_cons_run by assumption.
    now rewrite dropWhile_all.
Qed.

Lemma Subseq_refl s : Subseq s s.
Proof. induction s; constructor; assumption. Qed.

Lemma Subseq_trans a b c : Subseq a b -> Subseq b c -> Subseq a c.
Proof.
  intros Hab Hbc. revert a Hab.
  induction Hbc as [|x b c _ IH|x b c _ IH]; intros a Hab.
  - exact Hab.
  - inversion Hab; subst.
    + apply Subseq_keep. now apply IH.
    + apply Subseq_drop. now apply IH.
  - apply Subseq_drop. now apply IH.
Qed.

Lemma Subseq_length a b : Subseq a b -> (List.length a <= List.length b)%nat.
Proof. induction 1; simpl; lia. Qed.

Lemma Subseq_nil_l s : Subseq [] s.
Proof. induction s; constructor; assumption. Qed.

Lemma Subseq_app a a' b b' :
  Subseq a a' -> Subseq b b' -> Subseq (a ++ b) (a' ++ b').
Proof. induction 1; intros Hb; simpl; try constructor; auto. Qed.

Lemma Subseq_filter (f : N -> bool) s : Subseq (filter f s) s.
Proof.
  induction s as [|c r IH]; simpl; [constructor|].
  destruct (f c); constructor; assumption.
Qed.

Lemma Subseq_dropWhile p s : Subseq (dropWhile p s) s.
Proof.
  induction s as [|c r IH]; simpl; [constructor|].
  destruct (p c); [now constructor | apply Subseq_refl].
Qed.

Lemma Subseq_concat_filter (f : jsstring -> bool) (l : list jsstring) :
  Subseq (List.concat (filter f l)) (List.concat l).
Proof.
  induction l as [|r l IH]; simpl; [constructor|].
  destruct (f r); simpl.
  - apply Subseq_app; [apply Subseq_refl | assumption].
  - change (List.concat (filter f l)) with ([] ++ List.concat (filter f l)).
    apply Subseq_app; [apply Subseq_nil_l | assumption].
Qed.

Lemma Subseq_collapse s : Subseq (collapse s) s.
Proof.
  unfold collapse. rewrite <- (concat_runs s) at 2.
  apply Subseq_concat_filter.
Qed.

Lemma Subseq_strip s : Subseq (strip s) s.
Proof.
  unfold strip. eapply Subseq_trans; [|apply (Subseq_dropWhile is_space)].
  set (a := dropWhile is_space s).
  rewrite (trimEnd_prefix is_space a) at 2.
  rewrite <- (app_nil_r (rev (dropWhile is_space (rev a)))) at 1.
  apply Subseq_app; [apply Subseq_refl | apply Subseq_nil_l].
Qed.

Lemma Subseq_normalize s : Subseq (normalize s) s.
Proof.
  unfold normalize, delete_char.
  eapply Subseq_trans; [apply Subseq_strip|].
  eapply Subseq_trans; [apply Subseq_collapse|].
  eapply Subseq_trans; apply Subseq_filter.
Qed.

Lemma delete_char_app c a b :
  delete_char c (a ++ b) = delete_char c a ++ delete_char c b.
Proof. apply filter_app. Qed.

End CleanMore.

(** X1. The strings that [cleanText] leaves unchanged are exactly those
    without newline and tab, without two adjacent whitespace code units and
    without whitespace at either end. *)
Theorem cleanText_fixed_points :
  forall text,
    cleanText text = text
    <-> (~ In LF text /\ ~ In TAB text
         /\ Normalizer.no_adjacent_space text = true
         /\ Normalizer.starts_with_space text = false
         /\ Normalizer.ends_with_space text = false).
Proof.
  intros text. rewrite cleanText_normalize. split.
  - intros H. rewrite <- H. repeat split.
    + apply CleanFacts.normalize_no_char. now left.
    + apply CleanFacts.normalize_no_char. now right.
    + apply CleanFacts.normalize_no_adjacent.
    + apply CleanFacts.strip_no_leading.
    + apply CleanFacts.strip_no_trailing.
  - intros (H1 & H2 & H3 & H4 & H5). now apply CleanFacts.normalize_fixpoint.
Qed.

(** X2. A text made of whitespace only is cleaned to the empty string. *)
Theorem cleanText_blank :
  forall text, forallb is_space text = true -> cleanText text = [].
Proof.
  intros text H. rewrite cleanText_normalize. unfold Normalizer.normalize.
  apply CleanMore.collapse_all_space.
  unfold Normalizer.delete_char. now do 2 apply CleanMore.forallb_filter.
Qed.

Lemma cleanText_blank_witness : cleanText [32; 9; 160; 10; 32]%N = [].
Proof. apply (cleanText_blank [32; 9; 160; 10; 32]%N). reflexivity. Defined.

(** X3. [cleanText] only leaves code units out: its result is the input
    with some code units removed, in the same order, and never longer. *)
Theorem cleanText_subsequence :
  forall text,
    Props.Subseq (cleanText text) text
    /\ (List.length (cleanText text) <= List.length text)%nat.
Proof.
  intros text. rewrite cleanText_normalize.
  pose proof (CleanMore.Subseq_normalize text) as H.
  split; [exact H | now apply CleanMore.Subseq_length].
Qed.

(** X4. A newline or a tab is deleted before anything else, so it never
    separates: the text on its two sides is cleaned as if adjacent. *)
Theorem cleanText_newline_tab_glue :
  forall u v,
    cleanText (u ++ LF :: v) = cleanText (u ++ v)
    /\ cleanText (u ++ TAB :: v) = cleanText (u ++ v).
Proof.
  intros u v. rewrite !cleanText_normalize. unfold Normalizer.normalize.
  rewrite !CleanMore.delete_char_app. split.
  - reflexivity.
  - change (Normalizer.delete_char LF (TAB :: v))
      with (TAB :: Normalizer.delete_char LF v).
    reflexivity.
Qed.

(** ** [convertToDate] *)

Module ConvertMore.
Import TimePattern TimeFacts Props.

Lemma timeRegex_at_nondigit c r :
  is_digit c = false -> timeRegex_at (c :: r) = None.
Proof.
  intros H.
  destruct r as [|d2 [|x [|d3 [|d4 [|w [|p rest]]]]]]; try reflexivity.
  cbn [timeRegex_at]. now rewrite H.
Qed.

(** Leading text without a digit is skipped by the search. *)
Lemma timeRegex_match_skip pre s :
  forallb (fun c => negb (is_digit c)) pre = true ->
  timeRegex_match (pre ++ s) = timeRegex_match s.
Proof.
  induction pre as [|c pre IH]; [reflexivity|]. cbn [forallb app].
  intros H. apply andb_true_iff in H as [Hc Hpre].
  apply negb_true_iff in Hc. cbn [timeRegex_match].
  rewrite timeRegex_at_nondigit by assumption. now apply IH.
Qed.

Lemma timeRegex_match_shape s time abbr :
  TimeShape s time abbr -> timeRegex_match s = Some (time, abbr).
Proof.
  intros H. pose proof (timeRegex_at_complete _ _ _ H) as E.
  destruct s as [|c r]; [discriminate|].
  cbn [timeRegex_match]. now rewrite E.
Qed.

Lemma getOwn_In (o : properties) key v :
  getOwn o key = Some v -> In (key, v) o.
Proof.
  induction o as [|[k x] o IH]; simpl; [discriminate|].
  destruct (JsString.eqb k key) eqn:E.
  - apply jsstring_eqb_eq in E. intros H; inversion H; subst. now left.
  - intros H. right. now apply IH.
Qed.

Lemma prototype_members key v :
  getOwn Object_prototype key = Some v -> exists name, v = Builtin name.
Proof.
  intros H. apply getOwn_In in H. unfold Object_prototype in H.
  apply in_map_iff in H as (name & E & _). inversion E. now eexists.
Qed.

(** The three results of [timeZoneOffsets[abbr]]. *)
Lemma get_cases abbr :
  (exists off, get timeZoneOffsets abbr = Number off
               /\ getOwn timeZoneOffsets abbr = Some (Number off)
               /\ (-8 <= off <= 0)%Z)
  \/ (exists name, get timeZoneOffsets abbr = Builtin name
                   /\ getOwn timeZoneOffsets abbr = None
                   /\ getOwn Object_prototype abbr = Some (Builtin name))
  \/ (get timeZoneOffsets abbr = Undefined
      /\ getOwn timeZoneOffsets abbr = None
      /\ getOwn Object_prototype abbr = None).
Proof.
  unfold get. destruct (getOwn timeZoneOffsets abbr) as [v|] eqn:Eo.
  - left. pose proof (table_entries _ _ Eo) as Hin.
    assert (exists off, v = Number off) as [off ->].
    { unfold timeZoneOffsets in Hin.
      repeat (destruct Hin as [Hin|Hin];
              [inversion Hin; subst; now eexists|]).
      contradiction. }
    exists off. repeat split; trivial; now apply (table_offset _ _ Eo).
  - right. destruct (getOwn Object_prototype abbr) as [v|] eqn:Ep.
    + left. destruct (prototype_members _ _ Ep) as [name ->]. now exists name.
    + right. now repeat split.
Qed.

Section Value.

Variable World : Type.
Variable Date_now : World -> Z * World.

(** What [convertToDate] does once the pattern is found. *)
Lemma convertToDate_matched s time abbr w :
  timeRegex_match s = Some (time, abbr) ->
  exists d1 d2 d3 d4,
    is_digit d1 = true /\ is_digit d2 = true
    /\ is_digit d3 = true /\ is_digit d4 = true
    /\ convertToDate Date_now s w
       = match get timeZoneOffsets abbr with
         | Undefined => (inl UnknownTimeZone, w)
         | Number off =>
             (inr (mkDate
                     (TimeClip
                        (Num (instant (fst (Date_now w)) d1 d2 d3 d4 off)))),
              snd (Date_now w))
         | Builtin _ => (inr (mkDate NaN), snd (Date_now w))
         end.
Proof.
  intros Hm. destruct (timeRegex_match_some _ _ _ Hm) as (pre & m & _ & Hs).
  inversion Hs as [d1 d2 d3 d4 x ab post H1 H2 H3 H4 Hx Hne Hab Em Et Ea].
  subst. exists d1, d2, d3, d4. repeat (split; [assumption|]).
  unfold convertToDate. rewrite Hm, split_time by assumption.
  cbn [nth]. destruct (get timeZoneOffsets abbr); try reflexivity;
    now destruct (Date_now w).
Qed.

End Value.

Lemma instant_bounds now d1 d2 d3 d4 off :
  is_digit d1 = true -> is_digit d2 = true ->
  is_digit d3 = true -> is_digit d4 = true ->
  (-8 <= off <= 0)%Z ->
  let t := instant now d1 d2 d3 d4 off in
  (Day now * msPerDay <= t <= Day now * msPerDay + longest_span)%Z
  /\ (Day now <= Day t <= Day now + 4)%Z
  /\ SecFromTime t = 0%Z /\ msFromTime t = 0%Z.
Proof.
  intros H1 H2 H3 H4 Hoff t. subst t.
  pose proof (digit_value _ H1). pose proof (digit_value _ H2).
  pose proof (digit_value _ H3). pose proof (digit_value _ H4).
  unfold instant, two_digits, longest_span, Day, SecFromTime, msFromTime,
    msPerDay, msPerHour, msPerMinute, msPerSecond.
  set (h := (10 * (Z.of_N d1 - 48) + (Z.of_N d2 - 48) - off)%Z).
  set (m := (10 * (Z.of_N d3 - 48) + (Z.of_N d4 - 48))%Z).
  assert (0 <= h <= 107)%Z by (subst h; lia).
  assert (0 <= m <= 99)%Z by (subst m; lia).
  clearbody h m.
  repeat split; Z.to_euclidean_division_equations; lia.
Qed.

End ConvertMore.

(** X5. Only the first occurrence of the pattern counts: text in front of
    it that holds no digit and any text behind its closing parenthesis
    change nothing. *)
Theorem convertToDate_surrounding_text :
  forall (World : Type) (Date_now : World -> Z * World) (w : World)
         (d1 d2 d3 d4 : N) (abbr pre post : jsstring),
    is_digit d1 = true -> is_digit d2 = true ->
    is_digit d3 = true -> is_digit d4 = true ->
    abbr <> [] -> forallb is_word abbr = true ->
    forallb (fun c => negb (is_digit c)) pre = true ->
    convertToDate Date_now
      (pre ++ TimePattern.display d1 d2 d3 d4 abbr ++ post) w
    = convertToDate Date_now (TimePattern.display d1 d2 d3 d4 abbr) w.
Proof.
  intros World Date_now w d1 d2 d3 d4 abbr pre post H1 H2 H3 H4 Hne Hab Hpre.
  unfold convertToDate.
  rewrite ConvertMore.timeRegex_match_skip by assumption.
  rewrite TimeFacts.timeRegex_match_display by assumption.
  rewrite (ConvertMore.timeRegex_match_shape
             (TimePattern.display d1 d2 d3 d4 abbr ++ post)
             [d1; d2; 58; d3; d4]%N abbr); [reflexivity|].
  unfold TimePattern.display. rewrite <- !app_assoc.
  now apply (TimePattern.TimeShape_intro d1 d2 d3 d4 32 abbr post).
Qed.

Lemma convertToDate_surrounding_text_witness :
  convertToDate Fixture.Date_now (js "Fajr: 05:30 (CST) 10 min later") tt
  = convertToDate Fixture.Date_now (js "05:30 (CST)") tt.
Proof.
  apply (convertToDate_surrounding_text unit Fixture.Date_now tt
           48 53 51 48 (js "CST") (js "Fajr: ") (js " 10 min later"));
    try reflexivity. discriminate.
Defined.

(** X6. Whenever [convertToDate] returns a valid date, its seconds and
    milliseconds are zero, and it lies at or after the UTC midnight of the
    day the clock reads and at most 107 hours and 99 minutes after it, so
    on that UTC day or one of the four that follow; the clock was read
    once. *)
Theorem convertToDate_result_window :
  forall (World : Type) (Date_now : World -> Z * World)
         (s : jsstring) (w w' : World) (t : Z),
    convertToDate Date_now s w = (inr (mkDate (Num t)), w') ->
    (Day (fst (Date_now w)) * msPerDay <= t
     <= Day (fst (Date_now w)) * msPerDay + Props.longest_span)%Z
    /\ (Day (fst (Date_now w)) <= Day t <= Day (fst (Date_now w)) + 4)%Z
    /\ SecFromTime t = 0%Z /\ msFromTime t = 0%Z
    /\ w' = snd (Date_now w).
Proof.
  intros World Date_now s w w' t H.
  destruct (timeRegex_match s) as [[time abbr]|] eqn:Em.
  - destruct (ConvertMore.convertToDate_matched World Date_now s time abbr w Em)
      as (d1 & d2 & d3 & d4 & H1 & H2 & H3 & H4 & E).
    rewrite E in H. clear E.
    destruct (ConvertMore.get_cases abbr)
      as [(off & Eg & _ & Hoff) | [(name & Eg & _) | (Eg & _)]];
      rewrite Eg in H; try discriminate.
    unfold TimeClip in H.
    destruct (8640000000000000 <? Z.abs _)%Z; [discriminate|].
    inversion H; subst.
    pose proof (ConvertMore.instant_bounds (fst (Date_now w)) d1 d2 d3 d4 off
                  H1 H2 H3 H4 Hoff) as B.
    cbv zeta in B. tauto.
  - unfold convertToDate in H. rewrite Em in H. discriminate.
Qed.

Lemma convertToDate_result_window_witness :
  (Day (fst (Fixture.Date_now tt)) * msPerDay <= 1762230600000
   <= Day (fst (Fixture.Date_now tt)) * msPerDay + Props.longest_span)%Z
  /\ (Day (fst (Fixture.Date_now tt)) <= Day 1762230600000
      <= Day (fst (Fixture.Date_now tt)) + 4)%Z
  /\ SecFromTime 1762230600000 = 0%Z /\ msFromTime 1762230600000 = 0%Z
  /\ tt = snd (Fixture.Date_now tt).
Proof.
  apply (convertToDate_result_window unit Fixture.Date_now
           (js "23:30 (EST)") tt tt 1762230600000).
  reflexivity.
Defined.

(** X7. The clock matters through its UTC day only: two conversions of the
    same text, started on clocks that read times of the same UTC day, give
    the same result. *)
Theorem convertToDate_day_only :
  forall (World1 World2 : Type)
         (Date_now1 : World1 -> Z * World1) (Date_now2 : World2 -> Z * World2)
         (s : jsstring) (w1 : World1) (w2 : World2),
    Day (fst (Date_now1 w1)) = Day (fst (Date_now2 w2)) ->
    fst (convertToDate Date_now1 s w1) = fst (convertToDate Date_now2 s w2).
Proof.
  intros World1 World2 Date_now1 Date_now2 s w1 w2 H.
  unfold convertToDate.
  destruct (timeRegex_match s) as [[time abbr]|]; [|reflexivity].
  destruct (get timeZoneOffsets abbr); [reflexivity| |];
    destruct (Date_now1 w1) as [n1 w1'], (Date_now2 w2) as [n2 w2'];
    cbn [fst] in *; unfold setUTCHours; cbn [timeValue]; now rewrite H.
Qed.

Lemma convertToDate_day_only_witness :
  fst (convertToDate (Fixture.clock 1762128000000) (js "12:10 (CST)") tt)
  = fst (convertToDate (Fixture.clock 1762214399999) (js "12:10 (CST)") tt).
Proof.
  apply (convertToDate_day_only unit unit (Fixture.clock 1762128000000)
           (Fixture.clock 1762214399999) (js "12:10 (CST)") tt tt).
  reflexivity.
Defined.

(** X8. With the clock well inside the range of [Date], a text in which
    the pattern is found gives an invalid date exactly when its
    abbreviation is not in the table and names a member of
    [Object.prototype]. *)
Theorem convertToDate_invalid_date_iff :
  forall (World : Type) (Date_now : World -> Z * World)
         (s time abbr : jsstring) (w : World),
    timeRegex_match s = Some (time, abbr) ->
    Props.clock_well_inside (fst (Date_now w)) ->
    fst (convertToDate Date_now s w) = inr (mkDate NaN)
    <-> (TimePattern.in_table abbr = false
         /\ DocSpec.populated (getOwn Object_prototype abbr) = true).
Proof.
  intros World Date_now s time abbr w Em Hclock.
  destruct (ConvertMore.convertToDate_matched World Date_now s time abbr w Em)
    as (d1 & d2 & d3 & d4 & H1 & H2 & H3 & H4 & E).
  rewrite E. clear E.
  destruct (ConvertMore.get_cases abbr)
    as [(off & -> & Eo & Hoff) | [(name & -> & Eo & Ep) | (-> & Eo & Ep)]].
  - assert (Hin : TimePattern.in_table abbr = true)
      by (apply TimeFacts.in_table_own; now exists off).
    rewrite Hin. cbn [fst]. split; [|intros [? _]; discriminate].
    pose proof (ConvertMore.instant_bounds (fst (Date_now w)) d1 d2 d3 d4 off
                  H1 H2 H3 H4 Hoff) as (B & _).
    unfold TimeClip.
    destruct (8640000000000000 <? Z.abs _)%Z eqn:Ec; [|discriminate].
    exfalso. apply Z.ltb_lt in Ec.
    unfold Props.clock_well_inside, Props.longest_span, Day, msPerDay,
      msPerHour, msPerMinute in *.
    revert Ec B Hclock.
    generalize (Props.instant (fst (Date_now w)) d1 d2 d3 d4 off).
    intros x Ec B Hclock. Z.to_euclidean_division_equations. lia.
  - rewrite Ep. cbn [fst DocSpec.populated]. split; [|reflexivity].
    intros _. split; [|reflexivity].
    destruct (TimePattern.in_table abbr) eqn:Hin; [|reflexivity].
    apply TimeFacts.in_table_own in Hin as [off Hoff]. congruence.
  - rewrite Ep. cbn [fst DocSpec.populated].
    split; [discriminate | intros [_ ?]; discriminate].
Qed.

Lemma convertToDate_invalid_date_iff_witness :
  fst (convertToDate Fixture.Date_now (js "at 07:15 (valueOf)") tt)
  = inr (mkDate NaN)
  <-> (TimePattern.in_table (js "valueOf") = false
       /\ DocSpec.populated (getOwn Object_prototype (js "valueOf")) = true).
Proof.
  apply (convertToDate_invalid_date_iff unit Fixture.Date_now
           (js "at 07:15 (valueOf)") (js "07:15") (js "valueOf") tt).
  - reflexivity.
  - unfold Props.clock_well_inside, Props.longest_span, Fixture.Date_now,
      Fixture.clock, Fixture.morning, msPerDay, msPerHour, msPerMinute.
    cbn [fst]. lia.
Defined.

(** ** [scrape] and its records *)

Section ScrapeMore.

Import DocSpec Props.

Variable World : Type.
Variable Date_now : World -> Z * World.
Variable axios_get : jsstring -> World -> (exn + jsstring) * World.
Variable cheerio_load : jsstring -> exn + Document.

(** The outcome of the block on a loaded page, with what the conversions
    leave in the slots. *)
Lemma extract_outcome dollar w u :
  exists r w' p,
    extract Date_now dollar (w, stub u)
    = (r, (w', set_timings (fun _ => p) (texts_record dollar u)))
    /\ slots_form_prefix p = true
    /\ populated (isha p) = slot_in_sequence dollar 5
    /\ match r with
       | inl e => (e = InvalidTimeFormat \/ e = UnknownTimeZone)
                  /\ isha p = None
       | inr _ => populated (isha p) = true
       end.
Proof.
  rewrite extract_stub.
  destruct (assign_timings_spec World Date_now
              (query dollar (Class (js "microLink"))) w
              (texts_record dollar u) eq_refl)
    as (r & w' & p & Ep & H0 & H1 & H2 & H3 & H4 & H5 & _ & _ & _ & _ & _ & _ & Hr).
  exists r, w', p. split; [exact Ep|]. split; [|split; [exact H5 | exact Hr]].
  unfold slots_form_prefix. rewrite H0, H1, H2, H3, H4, H5.
  destruct (converts _), (converts _), (converts _), (converts _),
    (converts _), (converts _); reflexivity.
Qed.

Lemma stub_ok rest : record_ok (stub (DOMAIN ++ rest)).
Proof.
  unfold record_ok. cbn. repeat split; eauto.
Qed.

Lemma loaded_ok dollar rest p :
  slots_form_prefix p = true ->
  record_ok (set_timings (fun _ => p) (texts_record dollar (DOMAIN ++ rest))).
Proof.
  intros Hp. unfold record_ok.
  cbn [set_timings texts_record url prayerTimings description address
         populated].
  repeat split; eauto. now destruct (populated (fajr p)).
Qed.

Lemma scrape_try_ok rest w :
  record_ok
    (snd (snd (scrape_try Date_now axios_get cheerio_load (DOMAIN ++ rest)
                 (w, stub (DOMAIN ++ rest))))).
Proof.
  destruct (scrape_try_cases World Date_now axios_get cheerio_load
              (DOMAIN ++ rest) w)
    as [(e & w1 & _ & E) | [(data & w1 & e & _ & _ & E)
                           | (data & w1 & dollar & _ & _ & E)]];
    rewrite E; try apply stub_ok.
  destruct (extract_outcome dollar w1 (DOMAIN ++ rest))
    as (r & w' & p & Ep & Hp & _).
  rewrite Ep. now apply loaded_ok.
Qed.

Lemma scrape_loop_forall (P : Mosque -> Prop) urls :
  (forall u w, In u urls ->
               P (snd (snd (scrape_try Date_now axios_get cheerio_load u
                              (w, stub u))))) ->
  forall acc,
    Forall P (fst acc) ->
    Forall P
      (fst (fold_left
              (fun acc u => scrape_one Date_now axios_get cheerio_load u acc)
              urls acc)).
Proof.
  induction urls as [|u r IH]; intros HP [mosques w] Hacc; cbn [fold_left].
  - exact Hacc.
  - apply IH; [intros; apply HP; now right|].
    rewrite (surjective_pairing
               (scrape_one Date_now axios_get cheerio_load u (mosques, w))).
    cbn [fst]. rewrite scrape_one_push.
    apply Forall_app. split; [exact Hacc|].
    constructor; [apply HP; now left | constructor].
Qed.

End ScrapeMore.

(** X9. Every record that [scrape] returns has a URL that starts with
    [DOMAIN]; its populated time slots are the first ones in the order
    fajr, sunrise, dhur, asr, maghrib, isha; its address and description are
    both set or both absent; a populated slot comes with an address; and a
    record without address has empty tag lists and no time. *)
Theorem scrape_records_ok :
  forall (World : Type) (Date_now : World -> Z * World)
         (axios_get : jsstring -> World -> (exn + jsstring) * World)
         (cheerio_load : jsstring -> exn + Document) (w : World),
    Forall Props.record_ok (fst (scrape Date_now axios_get cheerio_load w)).
Proof.
  intros World Date_now axios_get cheerio_load w. unfold scrape.
  destruct (axios_get (DOMAIN ++ SUB) w) as [[e|data] w1]; [constructor|].
  destruct (cheerio_load data) as [e|dollar]; [constructor|].
  apply scrape_loop_forall; [|constructor].
  intros u w' Hu. rewrite mosqueURLs_flat_map, in_flat_map in Hu.
  destruct Hu as (div & _ & Hu). apply in_map_iff in Hu as (link & <- & _).
  apply scrape_try_ok.
Qed.


(** X11. On a loaded page the block ends without error exactly when the
    texts of all six slots convert. *)
Theorem extract_succeeds_iff :
  forall (World : Type) (Date_now : World -> Z * World)
         (dollar : Document) (w : World) (u : jsstring),
    fst (extract Date_now dollar (w, stub u)) = inr tt
    <-> DocSpec.slot_in_sequence dollar 5 = true.
Proof.
  intros World Date_now dollar w u.
  destruct (extract_outcome World Date_now dollar w u)
    as (r & w' & p & Ep & _ & H5 & Hr).
  rewrite Ep, <- H5. cbn [fst]. destruct r as [e|[]].
  - destruct Hr as [_ ->]. split; discriminate.
  - now split.
Qed.

(** X12. A page with fewer than six [.microLink] elements always ends the
    block with one of the two errors of [convertToDate], and its last slot
    stays absent. *)
Theorem extract_fewer_than_six :
  forall (World : Type) (Date_now : World -> Z * World)
         (dollar : Document) (w : World) (u : jsstring),
    (List.length (query dollar (Class (js "microLink"))) < 6)%nat ->
    exists e,
      fst (extract Date_now dollar (w, stub u)) = inl e
      /\ (e = InvalidTimeFormat \/ e = UnknownTimeZone)
      /\ isha (prayerTimings (snd (snd (extract Date_now dollar (w, stub u)))))
         = None.
Proof.
  intros World Date_now dollar w u Hlen.
  destruct (extract_outcome World Date_now dollar w u)
    as (r & w' & p & Ep & _ & H5 & Hr).
  rewrite Ep. cbn [fst snd set_timings prayerTimings].
  assert (Hno : DocSpec.slot_in_sequence dollar 5 = false).
  { cbn [DocSpec.slot_in_sequence]. unfold DocSpec.timing_text at 6.
    rewrite converts_out_of_range by lia. apply andb_false_r. }
  destruct r as [e|[]].
  - exists e. destruct Hr as [He Hisha]. now repeat split.
  - congruence.
Qed.

Lemma extract_fewer_than_six_witness :
  exists e,
    fst (extract Fixture.Date_now Fixture.four_times_page
           (tt, stub (DOMAIN ++ js "/mosque/1"))) = inl e
    /\ (e = InvalidTimeFormat \/ e = UnknownTimeZone)
    /\ isha (prayerTimings
               (snd (snd (extract Fixture.Date_now Fixture.four_times_page
                            (tt, stub (DOMAIN ++ js "/mosque/1"))))))
       = None.
Proof.
  apply (extract_fewer_than_six unit Fixture.Date_now Fixture.four_times_page
           tt (DOMAIN ++ js "/mosque/1")).
  vm_compute. lia.
Defined.

(** ** [writeToFile] *)

Module JoinFacts.
Import WriteToFile.

Lemma join_two sep x y l :
  join sep (x :: y :: l) = x ++ sep ++ join sep (y :: l).
Proof. reflexivity. Qed.

(** A text without comma in front of a comma is found again. *)
Lemma comma_split x y r1 r2 :
  comma_free x = true -> comma_free y = true ->
  x ++ 44%N :: r1 = y ++ 44%N :: r2 -> x = y /\ r1 = r2.
Proof.
  revert y. induction x as [|a x IH]; intros [|b y] Hx Hy E;
    cbn [app comma_free forallb] in *.
  - inversion E. now split.
  - inversion E; subst. now rewrite N.eqb_refl in Hy.
  - inversion E; subst. now rewrite N.eqb_refl in Hx.
  - inversion E; subst. apply andb_true_iff in Hx as [_ Hx].
    apply andb_true_iff in Hy as [_ Hy].
    destruct (IH y Hx Hy H1) as [-> ->]. now split.
Qed.

Lemma comma_free_app_comma x r : comma_free (x ++ 44%N :: r) = false.
Proof.
  unfold comma_free. rewrite forallb_app. cbn [forallb].
  rewrite N.eqb_refl. cbn. apply andb_false_r.
Qed.

Lemma join_injective l1 :
  forall l2,
    l1 <> [] -> l2 <> [] ->
    forallb comma_free l1 = true -> forallb comma_free l2 = true ->
    join (js ", ") l1 = join (js ", ") l2 -> l1 = l2.
Proof.
  induction l1 as [|x [|x' l1] IH]; intros [|y [|y' l2]] N1 N2 F1 F2 E;
    try congruence.
  - cbn [join] in E. now subst.
  - rewrite join_two in E. change (join (js ", ") [x]) with x in E. subst x.
    cbn [forallb] in F1. apply andb_true_iff in F1 as [F1 _].
    change (js ", ") with [44%N; 32%N] in F1. cbn [app] in F1.
    now rewrite comma_free_app_comma in F1.
  - rewrite join_two in E. change (join (js ", ") [y]) with y in E. subst y.
    cbn [forallb] in F2. apply andb_true_iff in F2 as [F2 _].
    change (js ", ") with [44%N; 32%N] in F2. cbn [app] in F2.
    now rewrite comma_free_app_comma in F2.
  - rewrite !join_two in E. change (js ", ") with [44%N; 32%N] in E.
    cbn [app] in E.
    cbn [forallb] in F1, F2.
    apply andb_true_iff in F1 as [Fx F1]. apply andb_true_iff in F2 as [Fy F2].
    destruct (comma_split _ _ _ _ Fx Fy E) as [-> E'].
    inversion E' as [E'']. f_equal.
    apply IH; trivial; discriminate.
Qed.

End JoinFacts.

(** X13. The two tag columns of the CSV rows determine the tag lists when
    every list has at least one tag and no tag holds a comma: mosques with
    the same cells have the same lists. *)
Theorem records_tags_recoverable :
  forall ms1 ms2 : list Mosque,
    Forall (fun m => WriteToFile.plain_tags (quickFacts m)
                     /\ WriteToFile.plain_tags (governance m)) ms1 ->
    Forall (fun m => WriteToFile.plain_tags (quickFacts m)
                     /\ WriteToFile.plain_tags (governance m)) ms2 ->
    List.map (fun r => (WriteToFile.row_quickFacts r,
                        WriteToFile.row_governance r))
      (WriteToFile.records ms1)
    = List.map (fun r => (WriteToFile.row_quickFacts r,
                          WriteToFile.row_governance r))
        (WriteToFile.records ms2) ->
    List.map quickFacts ms1 = List.map quickFacts ms2
    /\ List.map governance ms1 = List.map governance ms2.
Proof.
  intros ms1 ms2 H1. revert ms2.
  induction H1 as [|m1 r1 [[Nq1 Fq1] [Ng1 Fg1]] _ IH];
    intros ms2 H2 E; destruct H2 as [|m2 r2 [[Nq2 Fq2] [Ng2 Fg2]] H2];
    cbn [WriteToFile.records List.map] in E; try discriminate.
  - now split.
  - inversion E as [[Eq Eg Er]].
    cbn [WriteToFile.row_quickFacts WriteToFile.row_governance] in Eq, Eg.
    apply JoinFacts.join_injective in Eq; trivial.
    apply JoinFacts.join_injective in Eg; trivial.
    destruct (IH r2 H2 Er) as [IHq IHg].
    cbn [List.map]. now rewrite Eq, Eg, IHq, IHg.
Qed.

Lemma records_tags_recoverable_witness :
  List.map quickFacts
    [mkMosque None None (Some DOMAIN) [js "Parking"; js "Wudu area"]
       [js "Board"] no_timings]
  = List.map quickFacts
      [mkMosque (Some (js "Open daily")) None (Some DOMAIN)
         [js "Parking"; js "Wudu area"] [js "Board"] no_timings]
  /\ List.map governance
       [mkMosque None None (Some DOMAIN) [js "Parking"; js "Wudu area"]
          [js "Board"] no_timings]
     = List.map governance
         [mkMosque (Some (js "Open daily")) None (Some DOMAIN)
            [js "Parking"; js "Wudu area"] [js "Board"] no_timings].
Proof.
  apply (records_tags_recoverable
           [mkMosque None None (Some DOMAIN) [js "Parking"; js "Wudu area"]
              [js "Board"] no_timings]
           [mkMosque (Some (js "Open daily")) None (Some DOMAIN)
              [js "Parking"; js "Wudu area"] [js "Board"] no_timings]).
  - constructor; [|constructor].
    split; (split; [discriminate | reflexivity]).
  - constructor; [|constructor].
    split; (split; [discriminate | reflexivity]).
  - reflexivity.
Defined.

(** ** [cleanText] and the whitespace around a text *)

Module PadFacts.
Import Normalizer RunFacts CleanFacts CleanMore.

Lemma dropWhile_snoc p (l : jsstring) c :
  p c = false -> dropWhile p (l ++ [c]) = dropWhile p l ++ [c].
Proof.
  intros Hc. induction l as [|a l IH]; simpl.
  - now rewrite Hc.
  - destruct (p a); [exact IH | reflexivity].
Qed.

Lemma dropWhile_app_keep p (l m : jsstring) :
  dropWhile p l <> [] -> dropWhile p (l ++ m) = dropWhile p l ++ m.
Proof.
  induction l as [|a l IH]; simpl; [congruence|].
  destruct (p a); [exact IH | reflexivity].
Qed.

Lemma dropWhile_app_all p (l m : jsstring) :
  forallb p l = true -> dropWhile p (l ++ m) = dropWhile p m.
Proof.
  induction l as [|a l IH]; simpl; [reflexivity|].
  intros H. apply andb_true_iff in H as [Ha Hl]. now rewrite Ha, IH.
Qed.

Lemma forallb_rev (p : N -> bool) (l : jsstring) :
  forallb p l = true -> forallb p (rev l) = true.
Proof.
  rewrite !forallb_forall. intros H x Hx. apply H. now apply in_rev.
Qed.

Lemma trimEnd_cons_other c s :
  is_space c = false -> trimEnd (c :: s) = c :: trimEnd s.
Proof.
  intros Hc. unfold trimEnd. cbn [rev].
  rewrite dropWhile_snoc by assumption. rewrite rev_app_distr. reflexivity.
Qed.

Lemma trimEnd_cons_keep c s :
  trimEnd s <> [] -> trimEnd (c :: s) = c :: trimEnd s.
Proof.
  unfold trimEnd. intros H. cbn [rev].
  rewrite dropWhile_app_keep.
  - rewrite rev_app_distr. reflexivity.
  - intros E. apply H. now rewrite E.
Qed.

Lemma trimEnd_all s : forallb is_space s = true -> trimEnd s = [].
Proof.
  intros H. unfold trimEnd. now rewrite dropWhile_all by now apply forallb_rev.
Qed.

Lemma trimEnd_app_keep w s :
  trimEnd s <> [] -> trimEnd (w ++ s) = w ++ trimEnd s.
Proof.
  intros H. induction w as [|a w IH]; [reflexivity|].
  cbn [app]. rewrite trimEnd_cons_keep; [now rewrite IH|].
  rewrite IH. destruct w; [assumption | discriminate].
Qed.

(** Stripping the two ends in either order gives the same. *)
Lemma strip_trimEnd s : strip s = dropWhile is_space (trimEnd s).
Proof.
  unfold strip. fold (trimEnd (dropWhile is_space s)).
  rewrite <- (take_drop_while is_space s) at 2.
  destruct (dropWhile is_space s) as [|h t] eqn:E.
  - rewrite app_nil_r.
    rewrite (trimEnd_all (takeWhile is_space s)) by apply takeWhile_all.
    reflexivity.
  - pose proof (dropWhile_head _ _ _ _ E) as Hh.
    assert (Hne : trimEnd (h :: t) <> [])
      by (rewrite trimEnd_cons_other by assumption; discriminate).
    rewrite trimEnd_app_keep by assumption.
    rewrite trimEnd_cons_other in * by assumption.
    now rewrite TimeFacts.dropWhile_app_stop by (apply takeWhile_all || assumption).
Qed.

Lemma collapse_space_short w :
  forallb is_space w = true -> forallb is_space (collapse w) = true.
Proof.
  intros H. destruct w as [|a [|b r]]; [reflexivity| |].
  - rewrite collapse_cons_single by (exact I || (simpl in H; now rewrite andb_true_r in H)).
    exact H.
  - simpl in H. apply andb_true_iff in H as [Ha H].
    apply andb_true_iff in H as [Hb Hr].
    rewrite collapse_cons_run by assumption.
    now rewrite dropWhile_all.
Qed.

(** Whitespace behind a text changes nothing once the end is stripped. *)
Lemma collapse_trailing n :
  forall s pad,
    (List.length s <= n)%nat -> forallb is_space pad = true ->
    trimEnd (collapse (s ++ pad)) = trimEnd (collapse s).
Proof.
  induction n as [|n IH]; intros [|c r] pad Hlen Hpad; simpl in Hlen; try lia.
  - cbn [app]. now rewrite collapse_nil, trimEnd_all by now apply collapse_space_short.
  - cbn [app]. now rewrite collapse_nil, trimEnd_all by now apply collapse_space_short.
  - cbn [app]. destruct (is_space c) eqn:Hc.
    + destruct r as [|b r'].
      * cbn [app].
        rewrite (trimEnd_all (collapse (c :: pad)))
          by (apply collapse_space_short; simpl; now rewrite Hc).
        rewrite (trimEnd_all (collapse [c]))
          by (apply collapse_space_short; simpl; now rewrite Hc).
        reflexivity.
      * cbn [app]. destruct (is_space b) eqn:Hb.
        -- rewrite !collapse_cons_run by assumption.
           destruct (dropWhile is_space r') as [|h t] eqn:E.
           ++ assert (Hall : forallb is_space r' = true).
              { rewrite <- (take_drop_while is_space r'), E, app_nil_r.
                apply takeWhile_all. }
              rewrite dropWhile_app_all by assumption.
              now rewrite dropWhile_all.
           ++ rewrite dropWhile_app_keep by (rewrite E; discriminate).
              rewrite E. apply IH; [|assumption].
              pose proof (dropWhile_length is_space r') as Hl.
              rewrite E in Hl. simpl in Hlen. lia.
        -- rewrite (collapse_cons_single c (b :: r' ++ pad)) by assumption.
           rewrite (collapse_cons_single c (b :: r')) by assumption.
           rewrite !(collapse_cons_other b) by assumption.
           assert (K : forall q, trimEnd (c :: b :: q) = c :: b :: trimEnd q).
           { intros q. rewrite trimEnd_cons_keep;
               rewrite trimEnd_cons_other by assumption; [reflexivity | discriminate]. }
           rewrite !K. do 2 f_equal. apply IH; [simpl in Hlen; lia | assumption].
    + rewrite !collapse_cons_other by assumption.
      rewrite !trimEnd_cons_other by assumption. f_equal.
      apply IH; [lia | assumption].
Qed.

(** Whitespace in front of a text changes nothing once the start is
    stripped. *)
Lemma collapse_leading s :
  dropWhile is_space (collapse s)
  = dropWhile is_space (collapse (dropWhile is_space s)).
Proof.
  destruct s as [|c r]; [reflexivity|]. cbn [dropWhile].
  destruct (is_space c) eqn:Hc; [|reflexivity].
  destruct r as [|b r']; [now rewrite collapse_cons_single by trivial; cbn; rewrite Hc|].
  cbn [dropWhile]. destruct (is_space b) eqn:Hb.
  - now rewrite collapse_cons_run by assumption.
  - rewrite collapse_cons_single by assumption. cbn [dropWhile]. now rewrite Hc.
Qed.

Lemma strip_collapse_pad pad1 s pad2 :
  forallb is_space pad1 = true -> forallb is_space pad2 = true ->
  strip (collapse (pad1 ++ s ++ pad2)) = strip (collapse s).
Proof.
  intros H1 H2.
  transitivity (strip (collapse (s ++ pad2))).
  - unfold strip. rewrite (collapse_leading (pad1 ++ s ++ pad2)).
    rewrite dropWhile_app_all by assumption.
    now rewrite <- collapse_leading.
  - rewrite !strip_trimEnd. f_equal. now apply (collapse_trailing (List.length s)).
Qed.

End PadFacts.

(** X14. Whitespace of any kind and length before and after a text does
    not change what [cleanText] returns. *)
Theorem cleanText_padding :
  forall pad1 text pad2,
    forallb is_space pad1 = true -> forallb is_space pad2 = true ->
    cleanText (pad1 ++ text ++ pad2) = cleanText text.
Proof.
  intros pad1 text pad2 H1 H2. rewrite !cleanText_normalize.
  unfold Normalizer.normalize. rewrite !CleanMore.delete_char_app.
  apply PadFacts.strip_collapse_pad;
    unfold Normalizer.delete_char; now do 2 apply CleanMore.forallb_filter.
Qed.

Lemma cleanText_padding_witness :
  cleanText ([10; 32; 32; 9]%N ++ js "Open daily" ++ [32; 13; 10]%N)
  = cleanText (js "Open daily").
Proof.
  apply (cleanText_padding [10; 32; 32; 9]%N (js "Open daily") [32; 13; 10]%N);
    reflexivity.
Defined.

(** ** [convertToDate] after [cleanText] *)

Module ComposeFacts.
Import Normalizer RunFacts CleanFacts CleanMore TimePattern TimeFacts Props.

Lemma word_ranges c : is_word c = true -> (48 <= c <= 122)%N.
Proof.
  unfold is_word, is_digit.
  rewrite !orb_true_iff, !andb_true_iff, !N.leb_le, N.eqb_eq. lia.
Qed.

Lemma space_ranges c :
  is_space c = true -> (c <= 32 \/ 160 <= c)%N.
Proof.
  unfold is_space.
  rewrite !orb_true_iff, !andb_true_iff, !N.leb_le, !N.eqb_eq. lia.
Qed.

Lemma word_not_space c : is_word c = true -> is_space c = false.
Proof.
  intros H. apply word_ranges in H.
  destruct (is_space c) eqn:E; [|reflexivity].
  apply space_ranges in E. lia.
Qed.

Lemma digit_is_word c : is_digit c = true -> is_word c = true.
Proof. unfold is_word. now intros ->. Qed.

Lemma word_not_char c x :
  (x < 48)%N -> is_word c = true -> negb (N.eqb c x) = true.
Proof.
  intros Hx H. apply word_ranges in H. apply negb_true_iff, N.eqb_neq. lia.
Qed.

Lemma word_not_colon c : is_digit c = true -> N.eqb c 58 = false.
Proof.
  unfold is_digit. rewrite andb_true_iff, !N.leb_le. intros H.
  apply N.eqb_neq. lia.
Qed.

Lemma forallb_impl (f g : N -> bool) (l : jsstring) :
  (forall x, f x = true -> g x = true) ->
  forallb f l = true -> forallb g l = true.
Proof.
  intros Hfg. rewrite !forallb_forall. auto.
Qed.

Lemma filter_all (f : N -> bool) (l : jsstring) :
  forallb f l = true -> filter f l = l.
Proof.
  induction l as [|a l IH]; simpl; [reflexivity|].
  intros H. apply andb_true_iff in H as [Ha Hl]. now rewrite Ha, IH.
Qed.

(** A text without whitespace passes the collapse unchanged. *)
Lemma collapse_no_space s :
  forallb (fun c => negb (is_space c)) s = true -> collapse s = s.
Proof.
  induction s as [|c r IH]; [reflexivity|]. simpl forallb.
  intros H. apply andb_true_iff in H as [Hc Hr].
  apply negb_true_iff in Hc. now rewrite collapse_cons_other, IH.
Qed.

Lemma ends_with_space_snoc s c : ends_with_space (s ++ [c]) = is_space c.
Proof. unfold ends_with_space. now rewrite rev_app_distr. Qed.

Lemma parenthesised_no_space abbr :
  forallb is_word abbr = true ->
  forallb (fun c => negb (is_space c)) (parenthesised abbr) = true.
Proof.
  intros H. unfold parenthesised. cbn [forallb].
  rewrite forallb_app. cbn.
  rewrite (forallb_impl is_word (fun c => negb (is_space c))); trivial.
  intros x Hx. now rewrite word_not_space.
Qed.

Lemma parenthesised_not_char abbr x :
  (x < 40)%N -> forallb is_word abbr = true ->
  forallb (fun c => negb (N.eqb c x)) (parenthesised abbr) = true.
Proof.
  intros Hx H. unfold parenthesised. cbn [forallb]. rewrite forallb_app.
  cbn [forallb].
  rewrite (forallb_impl is_word (fun c => negb (N.eqb c x)) abbr); trivial.
  - rewrite !andb_true_r, andb_true_iff. split; apply negb_true_iff, N.eqb_neq; lia.
  - intros c Hc. apply word_not_char; [lia | assumption].
Qed.

Lemma parenthesised_no_colon abbr :
  forallb is_word abbr = true ->
  forallb (fun c => negb (N.eqb c 58)) (parenthesised abbr) = true.
Proof.
  intros H. unfold parenthesised. cbn [forallb]. rewrite forallb_app.
  cbn [forallb].
  rewrite (forallb_impl is_word (fun c => negb (N.eqb c 58)) abbr); trivial.
  intros c Hc. apply negb_true_iff, N.eqb_neq.
  unfold is_word, is_digit in Hc.
  rewrite !orb_true_iff, !andb_true_iff, !N.leb_le, N.eqb_eq in Hc. lia.
Qed.

Lemma head_not_char d1 d2 d3 d4 x tail :
  x = LF \/ x = TAB ->
  is_digit d1 = true -> is_digit d2 = true ->
  is_digit d3 = true -> is_digit d4 = true ->
  forallb (fun c => negb (N.eqb c x)) tail = true ->
  forallb (fun c => negb (N.eqb c x)) (d1 :: d2 :: 58%N :: d3 :: d4 :: tail)
  = true.
Proof.
  intros Hx H1 H2 H3 H4 Ht. cbn [forallb].
  assert (x < 48)%N by (destruct Hx; subst; reflexivity).
  rewrite (word_not_char d1 x), (word_not_char d2 x), (word_not_char d3 x),
    (word_not_char d4 x) by (assumption || now apply digit_is_word).
  rewrite Ht. destruct Hx; subst; reflexivity.
Qed.

(** Without a colon there is no time. *)
Lemma timeRegex_at_no_colon x1 x2 c r :
  N.eqb c 58 = false -> timeRegex_at (x1 :: x2 :: c :: r) = None.
Proof.
  intros H. destruct r as [|d3 [|d4 [|w [|p rest]]]]; try reflexivity.
  cbn [timeRegex_at]. rewrite H. now rewrite !andb_false_r.
Qed.

Lemma timeRegex_match_no_colon s :
  forallb (fun c => negb (N.eqb c 58)) s = true -> timeRegex_match s = None.
Proof.
  induction s as [|x1 r IH]; [reflexivity|]. intros H.
  simpl forallb in H. apply andb_true_iff in H as [H1 Hr].
  cbn [timeRegex_match]. rewrite (IH Hr).
  destruct r as [|x2 [|c r']]; try reflexivity.
  simpl forallb in Hr. apply andb_true_iff in Hr as [_ Hr].
  apply andb_true_iff in Hr as [Hc _]. apply negb_true_iff in Hc.
  now rewrite timeRegex_at_no_colon.
Qed.

Lemma timeRegex_at_no_separator d1 d2 c d3 d4 w r :
  is_space w = false -> timeRegex_at (d1 :: d2 :: c :: d3 :: d4 :: w :: r) = None.
Proof.
  intros H. destruct r as [|p rest]; [reflexivity|].
  cbn [timeRegex_at]. rewrite H. now rewrite !andb_false_r.
Qed.

(** The time and the parenthesis side by side are no time. *)
Lemma timeRegex_match_glued d1 d2 d3 d4 abbr :
  is_digit d1 = true -> is_digit d2 = true ->
  is_digit d3 = true -> is_digit d4 = true ->
  forallb is_word abbr = true ->
  timeRegex_match ([d1; d2; 58; d3; d4]%N ++ parenthesised abbr) = None.
Proof.
  intros H1 H2 H3 H4 Hab. unfold parenthesised. cbn [app].
  cbn [timeRegex_match].
  rewrite timeRegex_at_no_separator by reflexivity.
  rewrite (timeRegex_at_no_colon d2 58 d3) by now apply word_not_colon.
  rewrite ConvertMore.timeRegex_at_nondigit by reflexivity.
  change (timeRegex_match (d3 :: d4 :: parenthesised abbr) = None).
  apply timeRegex_match_no_colon. cbn [forallb].
  rewrite !word_not_colon by assumption.
  now rewrite parenthesised_no_colon.
Qed.

(** A displayed time is clean already. *)
Lemma display_clean d1 d2 d3 d4 abbr :
  is_digit d1 = true -> is_digit d2 = true ->
  is_digit d3 = true -> is_digit d4 = true ->
  forallb is_word abbr = true ->
  normalize (display d1 d2 d3 d4 abbr) = display d1 d2 d3 d4 abbr.
Proof.
  intros H1 H2 H3 H4 Hab.
  assert (S1 : is_space d1 = false) by now apply word_not_space, digit_is_word.
  assert (S2 : is_space d2 = false) by now apply word_not_space, digit_is_word.
  assert (S3 : is_space d3 = false) by now apply word_not_space, digit_is_word.
  assert (S4 : is_space d4 = false) by now apply word_not_space, digit_is_word.
  assert (P : forall x, x = LF \/ x = TAB ->
                        forallb (fun c => negb (N.eqb c x))
                          (display d1 d2 d3 d4 abbr) = true).
  { intros x Hx. unfold display.
    change ([d1; d2; 58; d3; d4; 32; 40]%N ++ abbr ++ [41%N])
      with (d1 :: d2 :: 58%N :: d3 :: d4 :: 32%N :: parenthesised abbr).
    apply head_not_char; trivial. cbn [forallb].
    rewrite parenthesised_not_char
      by (assumption || (destruct Hx; subst; reflexivity)).
    destruct Hx; subst; (reflexivity || assumption). }
  unfold normalize, delete_char.
  rewrite (filter_all _ _ (P LF (or_introl eq_refl))).
  rewrite (filter_all _ _ (P TAB (or_intror eq_refl))).
  unfold display.
  change ([d1; d2; 58; d3; d4; 32; 40]%N ++ abbr ++ [41%N])
    with (d1 :: d2 :: 58%N :: d3 :: d4 :: 32%N :: parenthesised abbr).
  rewrite (collapse_cons_other d1), (collapse_cons_other d2) by assumption.
  rewrite (collapse_cons_other 58%N) by reflexivity.
  rewrite (collapse_cons_other d3), (collapse_cons_other d4) by assumption.
  rewrite (collapse_cons_single 32%N) by reflexivity.
  rewrite collapse_no_space by now apply parenthesised_no_space.
  apply strip_id; [exact S1|].
  change (d1 :: d2 :: 58%N :: d3 :: d4 :: 32%N :: parenthesised abbr)
    with ([d1; d2; 58; d3; d4; 32; 40]%N ++ abbr ++ [41%N]).
  now rewrite app_assoc, ends_with_space_snoc.
Qed.

(** Two or more blanks between the time and the parenthesis vanish. *)
Lemma wide_gap_clean d1 d2 d3 d4 ws abbr :
  is_digit d1 = true -> is_digit d2 = true ->
  is_digit d3 = true -> is_digit d4 = true ->
  forallb is_word abbr = true ->
  forallb (fun c => is_space c && negb (N.eqb c LF) && negb (N.eqb c TAB)) ws
  = true ->
  (2 <= List.length ws)%nat ->
  normalize ([d1; d2; 58; d3; d4]%N ++ ws ++ parenthesised abbr)
  = [d1; d2; 58; d3; d4]%N ++ parenthesised abbr.
Proof.
  intros H1 H2 H3 H4 Hab Hws Hlen.
  assert (S1 : is_space d1 = false) by now apply word_not_space, digit_is_word.
  assert (S2 : is_space d2 = false) by now apply word_not_space, digit_is_word.
  assert (S3 : is_space d3 = false) by now apply word_not_space, digit_is_word.
  assert (S4 : is_space d4 = false) by now apply word_not_space, digit_is_word.
  assert (Wsp : forallb is_space ws = true).
  { revert Hws. apply forallb_impl. intros x Hx.
    now apply andb_true_iff in Hx as [Hx _]; apply andb_true_iff in Hx as [Hx _]. }
  assert (P : forall x, x = LF \/ x = TAB ->
                        forallb (fun c => negb (N.eqb c x))
                          ([d1; d2; 58; d3; d4]%N ++ ws ++ parenthesised abbr)
                        = true).
  { intros x Hx. cbn [app]. apply head_not_char; trivial.
    rewrite forallb_app, parenthesised_not_char
      by (assumption || (destruct Hx; subst; reflexivity)).
    rewrite andb_true_r. revert Hws. apply forallb_impl. intros c Hc.
    apply andb_true_iff in Hc as [Hc Ht]. apply andb_true_iff in Hc as [_ Hl].
    destruct Hx; subst; (reflexivity || assumption). }
  unfold normalize, delete_char.
  rewrite (filter_all _ _ (P LF (or_introl eq_refl))).
  rewrite (filter_all _ _ (P TAB (or_intror eq_refl))).
  destruct ws as [|a [|b r]]; simpl in Hlen; try lia.
  simpl forallb in Wsp. apply andb_true_iff in Wsp as [Ha Wsp].
  apply andb_true_iff in Wsp as [Hb Hr].
  cbn [app].
  rewrite (collapse_cons_other d1), (collapse_cons_other d2) by assumption.
  rewrite (collapse_cons_other 58%N) by reflexivity.
  rewrite (collapse_cons_other d3), (collapse_cons_other d4) by assumption.
  rewrite collapse_cons_run by assumption.
  unfold parenthesised at 1.
  rewrite dropWhile_app_stop by (assumption || reflexivity).
  fold (parenthesised abbr).
  rewrite collapse_no_space by now apply parenthesised_no_space.
  apply strip_id; [exact S1|].
  unfold parenthesised.
  change (d1 :: d2 :: 58%N :: d3 :: d4 :: 40%N :: abbr ++ [41%N])
    with ([d1; d2; 58; d3; d4; 40]%N ++ abbr ++ [41%N]).
  now rewrite app_assoc, ends_with_space_snoc.
Qed.

End ComposeFacts.

(** X15. A time whose clock part and parenthesis are separated by two or
    more blanks (none of them a newline or a tab) loses the whole gap in
    [cleanText], and the cleaned text is no time: [convertToDate] throws
    "Invalid time format". *)
Theorem wide_gap_breaks_time :
  forall (World : Type) (Date_now : World -> Z * World) (w : World)
         (d1 d2 d3 d4 : N) (ws abbr : jsstring),
    is_digit d1 = true -> is_digit d2 = true ->
    is_digit d3 = true -> is_digit d4 = true ->
    forallb is_word abbr = true ->
    forallb (fun c => is_space c && negb (N.eqb c LF) && negb (N.eqb c TAB)) ws
    = true ->
    (2 <= List.length ws)%nat ->
    cleanText ([d1; d2; 58; d3; d4]%N ++ ws ++ 40%N :: abbr ++ [41%N])
    = [d1; d2; 58; d3; d4; 40]%N ++ abbr ++ [41%N]
    /\ convertToDate Date_now
         (cleanText ([d1; d2; 58; d3; d4]%N ++ ws ++ 40%N :: abbr ++ [41%N])) w
       = (inl InvalidTimeFormat, w).
Proof.
  intros World Date_now w d1 d2 d3 d4 ws abbr H1 H2 H3 H4 Hab Hws Hlen.
  rewrite cleanText_normalize.
  pose proof (ComposeFacts.wide_gap_clean d1 d2 d3 d4 ws abbr
                H1 H2 H3 H4 Hab Hws Hlen) as E.
  unfold Props.parenthesised in E. rewrite E.
  split; [reflexivity|]. unfold convertToDate.
  pose proof (ComposeFacts.timeRegex_match_glued d1 d2 d3 d4 abbr
                H1 H2 H3 H4 Hab) as G.
  unfold Props.parenthesised in G. now rewrite G.
Qed.

Lemma wide_gap_breaks_time_witness :
  cleanText (js "05:30" ++ js "  " ++ 40%N :: js "CST" ++ [41%N])
  = js "05:30(CST)"
  /\ convertToDate Fixture.Date_now
       (cleanText (js "05:30" ++ js "  " ++ 40%N :: js "CST" ++ [41%N])) tt
     = (inl InvalidTimeFormat, tt).
Proof.
  apply (wide_gap_breaks_time unit Fixture.Date_now tt 48 53 51 48
           (js "  ") (js "CST")); reflexivity.
Defined.

(** X16. A displayed time with whitespace of any kind before and after it
    is cleaned to the bare time, so it converts as the bare time does. *)
Theorem padded_time_converts :
  forall (World : Type) (Date_now : World -> Z * World) (w : World)
         (d1 d2 d3 d4 : N) (abbr pad1 pad2 : jsstring),
    is_digit d1 = true -> is_digit d2 = true ->
    is_digit d3 = true -> is_digit d4 = true ->
    forallb is_word abbr = true ->
    forallb is_space pad1 = true -> forallb is_space pad2 = true ->
    cleanText (pad1 ++ TimePattern.display d1 d2 d3 d4 abbr ++ pad2)
    = TimePattern.display d1 d2 d3 d4 abbr
    /\ convertToDate Date_now
         (cleanText (pad1 ++ TimePattern.display d1 d2 d3 d4 abbr ++ pad2)) w
       = convertToDate Date_now (TimePattern.display d1 d2 d3 d4 abbr) w.
Proof.
  intros World Date_now w d1 d2 d3 d4 abbr pad1 pad2 H1 H2 H3 H4 Hab Hp1 Hp2.
  assert (E : cleanText (pad1 ++ TimePattern.display d1 d2 d3 d4 abbr ++ pad2)
              = TimePattern.display d1 d2 d3 d4 abbr).
  { rewrite !cleanText_normalize. unfold Normalizer.normalize.
    rewrite !CleanMore.delete_char_app.
    rewrite PadFacts.strip_collapse_pad
      by (unfold Normalizer.delete_char; now do 2 apply CleanMore.forallb_filter).
    now apply ComposeFacts.display_clean. }
  now rewrite E.
Qed.

Lemma padded_time_converts_witness :
  cleanText ([10; 9; 32]%N ++ TimePattern.display 49 57 48 48 (js "CST")
             ++ [32; 10]%N)
  = TimePattern.display 49 57 48 48 (js "CST")
  /\ convertToDate Fixture.Date_now
       (cleanText ([10; 9; 32]%N ++ TimePattern.display 49 57 48 48 (js "CST")
                   ++ [32; 10]%N)) tt
     = convertToDate Fixture.Date_now
         (TimePattern.display 49 57 48 48 (js "CST")) tt.
Proof.
  apply (padded_time_converts unit Fixture.Date_now tt 49 57 48 48 (js "CST")
           [10; 9; 32]%N [32; 10]%N); reflexivity.
Defined.
